(** * The interview assistant's renderer: a shallow embedding

    The renderer is three React components: [JDInput] (job description form),
    [QuestionsPanel] (per-question recording, transcription, grading and the
    final evaluation) and [AudioUploader].  Every event handler of a component
    is embedded as a function from the component's state to the new state and
    the list of effects it performs (alerts, HTTP requests, calls on the media
    recorder).  An [async] handler is cut at each [await]: the part before it
    is one function, the part that runs once the promise has settled is
    another one, taking the settled value.

    Strings are sequences of code units below 256, so that [ascii] is a code
    unit; JavaScript objects used as dictionaries are [gmap]s keyed by
    strings.  Console logging is not an effect of the model. *)

From Stdlib Require Import ZArith Ascii String List Bool Lia.
From stdpp Require Import base option list gmap strings fin_maps.

Local Open Scope Z_scope.

(* ===================================================================== *)
(** * JavaScript values *)
(* ===================================================================== *)

Module JS.

(** White space as [String.prototype.trim] and [parseInt] see it, for code
    units below 256: TAB, LF, VT, FF, CR, SP and NBSP. *)
Definition isWhiteSpace (c : ascii) : bool :=
  match c with
  | "009" | "010" | "011" | "012" | "013" | " " | "160" => true
  | _ => false
  end%char.

Fixpoint trimStart (s : string) : string :=
  match s with
  | EmptyString => EmptyString
  | String c r => if isWhiteSpace c then trimStart r else s
  end.

Fixpoint trimEnd (s : string) : string :=
  match s with
  | EmptyString => EmptyString
  | String c r =>
      match trimEnd r with
      | EmptyString => if isWhiteSpace c then EmptyString else String c EmptyString
      | r' => String c r'
      end
  end.

(** [s.trim()] *)
Definition trim (s : string) : string := trimEnd (trimStart s).

Fixpoint allWhiteSpace (s : string) : bool :=
  match s with
  | EmptyString => true
  | String c r => isWhiteSpace c && allWhiteSpace r
  end.

(** Truthiness of a string: only the empty string is falsy. *)
Definition truthy (s : string) : bool :=
  match s with EmptyString => false | _ => true end.

(** Truthiness of a value that is a string, [undefined] or [null]
    ([None] stands for both). *)
Definition truthy_opt (v : option string) : bool :=
  match v with Some s => truthy s | None => false end.

(** [a || b] on such values. *)
Definition or (a b : option string) : option string :=
  if truthy_opt a then a else b.

(** [a || d] when the right operand is a string literal. *)
Definition or_default (a : option string) (d : string) : string :=
  match a with
  | Some s => if truthy s then s else d
  | None => d
  end.

(** Value of a digit in radix 10 or 16. *)
Definition digit (radix : Z) (c : ascii) : option Z :=
  let n := Z.of_N (N_of_ascii c) in
  if (48 <=? n) && (n <=? 57) then Some (n - 48)
  else if (radix =? 16) && (97 <=? n) && (n <=? 102) then Some (n - 87)
  else if (radix =? 16) && (65 <=? n) && (n <=? 70) then Some (n - 55)
  else None.

(** The longest prefix of digits, read in the given radix; [None] when the
    prefix is empty. *)
Fixpoint digits (radix : Z) (acc : option Z) (s : string) : option Z :=
  match s with
  | EmptyString => acc
  | String c r =>
      match digit radix c with
      | Some d => digits radix (Some (radix * from_option id 0 acc + d)) r
      | None => acc
      end
  end.

Definition stripSign (s : string) : Z * string :=
  match s with
  | String "-"%char r => (-1, r)
  | String "+"%char r => (1, r)
  | _ => (1, s)
  end.

Definition stripHexPrefix (s : string) : Z * string :=
  match s with
  | String "0"%char (String "x"%char r) => (16, r)
  | String "0"%char (String "X"%char r) => (16, r)
  | _ => (10, s)
  end.

(** [parseInt(s)] with no radix argument; [None] is [NaN].  Numbers are
    exact integers: the result is the one of JavaScript for values of
    magnitude up to 2^53, beyond which a JavaScript number is rounded. *)
Definition parseInt (s : string) : option Z :=
  let '(sign, s1) := stripSign (trimStart s) in
  let '(radix, s2) := stripHexPrefix s1 in
  match digits radix None s2 with
  | Some n => Some (sign * n)
  | None => None
  end.

(** [n || d] for a number: [NaN] and [0] are falsy. *)
Definition num_or (n : option Z) (d : Z) : Z :=
  match n with
  | Some v => if v =? 0 then d else v
  | None => d
  end.

(** A value with no answer in it: [undefined], the empty string, or white
    space only. *)
Definition blank (v : option string) : bool :=
  match v with Some s => allWhiteSpace s | None => true end.

(** A settled promise. *)
Inductive Settled (A : Type) : Type :=
| Fulfilled (value : A)
| Rejected (message : string).
Arguments Fulfilled {A} value.
Arguments Rejected {A} message.

End JS.

(* ===================================================================== *)
(** * Requests to the backend and effects of the handlers *)
(* ===================================================================== *)

(** One entry of [qa_pairs]. *)
Record QAPair := {
  qa_question : string;
  qa_answer : string;
  qa_feedback : string
}.

Inductive Request :=
| GenerateQuestions (job_description : string) (num_questions : Z)
                    (years_experience : string)
| TranscribeAudio (file : list (list N))
| EvaluateAnswer (question answer : string) (technology : option string)
| FinalEvaluation (job_description : string) (qa_pairs : list QAPair)
                  (candidate_name years_experience : string).

Inductive Effect :=
| Alert (msg : string)
| Post (r : Request)
| SetJobDescription (jd : string)
| OnCandidateNameChange (name : string)
| GetUserMedia (question : string)
| RecorderStart
| RecorderStop
| TrackStop (kind : string).

(** Body of a transcription response ([res.data]); the [transcript] field
    may be missing ([None]). *)
Record TranscribeData := { transcript : option string }.
(** A transcription response; [data] itself may be missing. *)
Record TranscribeResponse := { transcribe_data : option TranscribeData }.

Definition is_post_evaluate (e : Effect) : bool :=
  match e with Post (EvaluateAnswer _ _ _) => true | _ => false end.
Definition is_post_final (e : Effect) : bool :=
  match e with Post (FinalEvaluation _ _ _ _) => true | _ => false end.
Definition is_post (e : Effect) : bool :=
  match e with Post _ => true | _ => false end.

(* ===================================================================== *)
(** * JDInput *)
(* ===================================================================== *)

Module JDInput.

Record State := {
  jd : string;
  candidateName : string;
  techStacks : list string;
  numQuestions : Z;
  yearsExperience : string
}.

(** The [useState] initial values. *)
Definition initial : State :=
  {| jd := ""; candidateName := ""; techStacks := [];
     numQuestions := 5; yearsExperience := "" |}.

Definition setJd (v : string) (st : State) : State :=
  {| jd := v; candidateName := candidateName st; techStacks := techStacks st;
     numQuestions := numQuestions st; yearsExperience := yearsExperience st |}.

Definition setCandidateName (v : string) (st : State) : State :=
  {| jd := jd st; candidateName := v; techStacks := techStacks st;
     numQuestions := numQuestions st; yearsExperience := yearsExperience st |}.

Definition setNumQuestions (n : Z) (st : State) : State :=
  {| jd := jd st; candidateName := candidateName st; techStacks := techStacks st;
     numQuestions := n; yearsExperience := yearsExperience st |}.

Definition setYearsExperience (v : string) (st : State) : State :=
  {| jd := jd st; candidateName := candidateName st; techStacks := techStacks st;
     numQuestions := numQuestions st; yearsExperience := v |}.

(** [onChange] of the number-of-questions input:
    [setNumQuestions(parseInt(e.target.value) || 5)].  The [min] and [max]
    attributes of the input are not consulted by the handler. *)
Definition onChangeNumQuestions (value : string) (st : State) : State :=
  setNumQuestions (JS.num_or (JS.parseInt value) 5) st.

(** [handleGenerate], up to its [await]. *)
Definition handleGenerate (st : State) : State * list Effect :=
  if negb (JS.truthy (JS.trim (jd st))) then
    (st, [Alert "Please enter a job description"])
  else if negb (JS.truthy (JS.trim (candidateName st))) then
    (st, [Alert "Please enter the candidate's name"])
  else
    (st, [SetJobDescription (jd st);
          OnCandidateNameChange (candidateName st);
          Post (GenerateQuestions (jd st) (numQuestions st) (yearsExperience st))]).

(** The Generate Questions button:
    [disabled={!jd.trim() || !candidateName.trim()}]. *)
Definition generateDisabled (st : State) : bool :=
  negb (JS.truthy (JS.trim (jd st))) || negb (JS.truthy (JS.trim (candidateName st))).

(** A click reaches [handleGenerate] only when the button is enabled. *)
Definition clickGenerate (st : State) : State * list Effect :=
  if generateDisabled st then (st, []) else handleGenerate st.

End JDInput.

(* ===================================================================== *)
(** * QuestionsPanel *)
(* ===================================================================== *)

Module QuestionsPanel.

Import JS.

(** ** Props *)

Record TechQuestion := {
  tq_question : string;
  technology : string
}.

(** The [questions] prop; a missing field reads as the empty list
    ([questions.general_questions || []] and the like). *)
Record Questions := {
  general_questions : list string;
  tech_questions : list TechQuestion;
  tech_stack : list string
}.

Record Props := {
  questions : Questions;
  jobDescription : string;
  candidateName : string
}.

Definition generalQuestions (p : Props) : list string :=
  general_questions (questions p).
Definition techQuestions (p : Props) : list TechQuestion :=
  tech_questions (questions p).

(** [[...generalQuestions, ...techQuestions.map(tq => tq.question)]] *)
Definition allQuestions (p : Props) : list string :=
  generalQuestions p ++ map tq_question (techQuestions p).

(** Question [q] is a technical question of the set, tagged [tech]. *)
Definition tagged (p : Props) (q tech : string) : Prop :=
  ∃ tq, tq ∈ techQuestions p ∧ tq_question tq = q ∧ technology tq = tech.

(** ** Responses of the backend *)

Record EvaluateResponse := { grade : Z; feedback : string }.

(** Body of a final-evaluation response ([response.data]). *)
Record FinalData := {
  success : bool;
  overall_score : Z;
  strengths : string;
  areas_for_improvement : string;
  technical_assessment : string;
  recommendations : string;
  error : option string
}.
(** A final-evaluation response; [data] itself may be missing. *)
Record FinalResponse := { final_data : option FinalData }.

(** ** The media recorder *)

Record MediaStream := { tracks : list string }.

Inductive RecordingState := inactive | recording.

(** A [MediaRecorder]; [onstop_question] is the question its [onstop]
    handler closes over. *)
Record MediaRecorder := {
  stream : MediaStream;
  state : RecordingState;
  onstop_question : string
}.

(** ** State: the [useState] cells and the two refs *)

Record State := {
  answers : gmap string string;
  feedbacks : gmap string string;
  techStackGrades : gmap string Z;
  isRecording : bool;
  activeQuestion : option string;
  isEvaluating : bool;
  evaluation : option FinalData;
  grades : gmap string Z;
  mediaRecorder : option MediaRecorder;
  audioChunks : list (list N);
  yearsExperience : string
}.

Definition initial : State :=
  {| answers := ∅; feedbacks := ∅; techStackGrades := ∅;
     isRecording := false; activeQuestion := None; isEvaluating := false;
     evaluation := None; grades := ∅; mediaRecorder := None;
     audioChunks := []; yearsExperience := "" |}.

Definition setAnswers (f : gmap string string → gmap string string) (st : State) : State :=
  {| answers := f (answers st); feedbacks := feedbacks st;
     techStackGrades := techStackGrades st; isRecording := isRecording st;
     activeQuestion := activeQuestion st; isEvaluating := isEvaluating st;
     evaluation := evaluation st; grades := grades st;
     mediaRecorder := mediaRecorder st; audioChunks := audioChunks st;
     yearsExperience := yearsExperience st |}.

Definition setFeedbacks (f : gmap string string → gmap string string) (st : State) : State :=
  {| answers := answers st; feedbacks := f (feedbacks st);
     techStackGrades := techStackGrades st; isRecording := isRecording st;
     activeQuestion := activeQuestion st; isEvaluating := isEvaluating st;
     evaluation := evaluation st; grades := grades st;
     mediaRecorder := mediaRecorder st; audioChunks := audioChunks st;
     yearsExperience := yearsExperience st |}.

Definition setTechStackGrades (f : gmap string Z → gmap string Z) (st : State) : State :=
  {| answers := answers st; feedbacks := feedbacks st;
     techStackGrades := f (techStackGrades st); isRecording := isRecording st;
     activeQuestion := activeQuestion st; isEvaluating := isEvaluating st;
     evaluation := evaluation st; grades := grades st;
     mediaRecorder := mediaRecorder st; audioChunks := audioChunks st;
     yearsExperience := yearsExperience st |}.

Definition setGrades (f : gmap string Z → gmap string Z) (st : State) : State :=
  {| answers := answers st; feedbacks := feedbacks st;
     techStackGrades := techStackGrades st; isRecording := isRecording st;
     activeQuestion := activeQuestion st; isEvaluating := isEvaluating st;
     evaluation := evaluation st; grades := f (grades st);
     mediaRecorder := mediaRecorder st; audioChunks := audioChunks st;
     yearsExperience := yearsExperience st |}.

Definition setIsRecording (b : bool) (st : State) : State :=
  {| answers := answers st; feedbacks := feedbacks st;
     techStackGrades := techStackGrades st; isRecording := b;
     activeQuestion := activeQuestion st; isEvaluating := isEvaluating st;
     evaluation := evaluation st; grades := grades st;
     mediaRecorder := mediaRecorder st; audioChunks := audioChunks st;
     yearsExperience := yearsExperience st |}.

Definition setActiveQuestion (q : option string) (st : State) : State :=
  {| answers := answers st; feedbacks := feedbacks st;
     techStackGrades := techStackGrades st; isRecording := isRecording st;
     activeQuestion := q; isEvaluating := isEvaluating st;
     evaluation := evaluation st; grades := grades st;
     mediaRecorder := mediaRecorder st; audioChunks := audioChunks st;
     yearsExperience := yearsExperience st |}.

Definition setIsEvaluating (b : bool) (st : State) : State :=
  {| answers := answers st; feedbacks := feedbacks st;
     techStackGrades := techStackGrades st; isRecording := isRecording st;
     activeQuestion := activeQuestion st; isEvaluating := b;
     evaluation := evaluation st; grades := grades st;
     mediaRecorder := mediaRecorder st; audioChunks := audioChunks st;
     yearsExperience := yearsExperience st |}.

Definition setEvaluation (e : option FinalData) (st : State) : State :=
  {| answers := answers st; feedbacks := feedbacks st;
     techStackGrades := techStackGrades st; isRecording := isRecording st;
     activeQuestion := activeQuestion st; isEvaluating := isEvaluating st;
     evaluation := e; grades := grades st;
     mediaRecorder := mediaRecorder st; audioChunks := audioChunks st;
     yearsExperience := yearsExperience st |}.

(** [mediaRecorder.current = r] *)
Definition set_mediaRecorder (r : option MediaRecorder) (st : State) : State :=
  {| answers := answers st; feedbacks := feedbacks st;
     techStackGrades := techStackGrades st; isRecording := isRecording st;
     activeQuestion := activeQuestion st; isEvaluating := isEvaluating st;
     evaluation := evaluation st; grades := grades st;
     mediaRecorder := r; audioChunks := audioChunks st;
     yearsExperience := yearsExperience st |}.

(** [audioChunks.current = cs] *)
Definition set_audioChunks (cs : list (list N)) (st : State) : State :=
  {| answers := answers st; feedbacks := feedbacks st;
     techStackGrades := techStackGrades st; isRecording := isRecording st;
     activeQuestion := activeQuestion st; isEvaluating := isEvaluating st;
     evaluation := evaluation st; grades := grades st;
     mediaRecorder := mediaRecorder st; audioChunks := cs;
     yearsExperience := yearsExperience st |}.

(** ** Recording *)

(** [startRecording(question)] up to [await getUserMedia]. *)
Definition startRecording (question : string) (st : State) : State * list Effect :=
  (st, [GetUserMedia question]).

(** [startRecording] once [getUserMedia] has settled.  A fresh recorder
    replaces [mediaRecorder.current], the chunk buffer is emptied, and the
    recorder is started; a rejection is caught and reported.  The interval
    timer only logs and is left out. *)
Definition startRecording_settled (question : string) (r : Settled MediaStream)
    (st : State) : State * list Effect :=
  match r with
  | Fulfilled s =>
      let rec := {| stream := s; state := recording; onstop_question := question |} in
      (setIsRecording true
         (setActiveQuestion (Some question)
            (set_audioChunks [] (set_mediaRecorder (Some rec) st))),
       [RecorderStart])
  | Rejected _ =>
      (st, [Alert "Microphone access denied. Please allow microphone access to record your answers."])
  end.

(** [ondataavailable]: [audioChunks.current.push(event.data)]. *)
Definition ondataavailable (chunk : list N) (st : State) : State * list Effect :=
  (set_audioChunks (audioChunks st ++ [chunk]) st, []).

(** [stopRecording()] *)
Definition stopRecording (st : State) : State * list Effect :=
  match mediaRecorder st with
  | Some rec =>
      if isRecording st then
        (setActiveQuestion None
           (setIsRecording false
              (set_mediaRecorder
                 (Some {| stream := stream rec; state := inactive;
                          onstop_question := onstop_question rec |}) st)),
         RecorderStop :: map TrackStop (tracks (stream rec)))
      else (st, [])
  | None => (st, [])
  end.

(** ** Submitting one answer *)

(** [techQuestions.find(tq => tq.question === question)] *)
Definition findTechQuestion (p : Props) (question : string) : option TechQuestion :=
  find (fun tq => bool_decide (tq_question tq = question)) (techQuestions p).

(** [handleSubmit(question, answerText)] up to its [await]. *)
Definition handleSubmit (p : Props) (question : string) (answerText : option string)
    (st : State) : State * list Effect :=
  match JS.or answerText (answers st !! question) with
  | Some answer =>
      if negb (truthy answer) || bool_decide (trim answer = "") then
        (st, [Alert "Please provide an answer before submitting."])
      else
        (st, [Post (EvaluateAnswer question answer
                      (technology <$> findTechQuestion p question))])
  | None => (st, [Alert "Please provide an answer before submitting."])
  end.

(** [handleSubmit] once the evaluate-answer request has settled. *)
Definition handleSubmit_settled (p : Props) (question : string)
    (r : Settled EvaluateResponse) (st : State) : State * list Effect :=
  match r with
  | Fulfilled res =>
      let st1 := setFeedbacks (insert question (feedback res)) st in
      let st2 := setGrades (insert question (grade res)) st1 in
      match findTechQuestion p question with
      | Some techQuestion =>
          (setTechStackGrades (insert (technology techQuestion) (grade res)) st2, [])
      | None => (st2, [])
      end
  | Rejected _ => (st, [Alert "Failed to evaluate answer. Please try again."])
  end.

(** ** Transcription: the recorder's [onstop] handler *)

(** [onstop] up to [await axios.post('/transcribe-audio')]. *)
Definition onstop (question : string) (st : State) : State * list Effect :=
  (st, [Post (TranscribeAudio (audioChunks st))]).

(** [onstop] once the transcription request has settled. *)
Definition onstop_settled (p : Props) (question : string)
    (r : Settled TranscribeResponse) (st : State) : State * list Effect :=
  match r with
  | Fulfilled res =>
      match transcribe_data res with
      | Some d =>
          if truthy_opt (transcript d) then
            let transcription := from_option id "" (transcript d) in
            let st1 := setAnswers (insert question transcription) st in
            handleSubmit p question (Some transcription) st1
          else
            (st, [Alert "Failed to transcribe audio: Invalid response format from server"])
      | None =>
          (st, [Alert "Failed to transcribe audio: Invalid response format from server"])
      end
  | Rejected message =>
      (st, [Alert ("Failed to transcribe audio: " +:+ message)])
  end.

(** ** Final evaluation *)

(** The [qaPairs] built by [handleFinalEvaluation]. *)
Definition qaPairs (p : Props) (st : State) : list QAPair :=
  map (fun q =>
         {| qa_question := q;
            qa_answer := or_default (answers st !! q) "No answer provided";
            qa_feedback := or_default (feedbacks st !! q) "" |})
      (allQuestions p).

(** [handleFinalEvaluation()] up to its [await]. *)
Definition handleFinalEvaluation (p : Props) (st : State) : State * list Effect :=
  if bool_decide (size (answers st) = 0%nat) then
    (st, [Alert "Please answer at least one question before final evaluation."])
  else
    (setIsEvaluating true st,
     [Post (FinalEvaluation (jobDescription p) (qaPairs p st)
              (candidateName p) (yearsExperience st))]).

(** [handleFinalEvaluation] once the request has settled: the [try] body
    after the [await], the [catch] and the [finally]. *)
Definition handleFinalEvaluation_settled (r : Settled FinalResponse)
    (st : State) : State * list Effect :=
  match r with
  | Fulfilled res =>
      match final_data res with
      | Some d =>
          if success d then
            (setIsEvaluating false (setEvaluation (Some d) st), [])
          else
            (setIsEvaluating false st,
             [Alert ("Error: " +:+ or_default (error d) "Failed to generate evaluation")])
      | None =>
          (setIsEvaluating false st,
           [Alert "Error: Cannot read properties of undefined (reading 'success')"])
      end
  | Rejected message =>
      (setIsEvaluating false st, [Alert ("Error: " +:+ message)])
  end.

(** ** The rendered buttons *)

Inductive Click :=
| ClickRecord (q : string)
| ClickStop (q : string)
| ClickSubmit (q : string)
| ClickFinal.

(** Whether a button is on the page and enabled.  For a question [q] of the
    page, the Stop Recording button replaces the Record Answer button when
    [isRecording && activeQuestion === q]; Record Answer has
    [disabled={isRecording}], Submit Answer has [disabled={!answers[q]}] and
    Generate Final Evaluation has
    [disabled={isEvaluating || Object.keys(answers).length === 0}]. *)
Definition enabled (p : Props) (st : State) (c : Click) : bool :=
  match c with
  | ClickRecord q =>
      bool_decide (q ∈ allQuestions p)
      && negb (isRecording st && bool_decide (activeQuestion st = Some q))
      && negb (isRecording st)
  | ClickStop q =>
      bool_decide (q ∈ allQuestions p)
      && (isRecording st && bool_decide (activeQuestion st = Some q))
  | ClickSubmit q =>
      bool_decide (q ∈ allQuestions p) && truthy_opt (answers st !! q)
  | ClickFinal =>
      negb (isEvaluating st || bool_decide (size (answers st) = 0%nat))
  end.

Definition onClick (p : Props) (c : Click) (st : State) : State * list Effect :=
  match c with
  | ClickRecord q => startRecording q st
  | ClickStop _ => stopRecording st
  | ClickSubmit q => handleSubmit p q None st
  | ClickFinal => handleFinalEvaluation p st
  end.

(** A click runs the handler only when its button is on the page and
    enabled. *)
Definition click (p : Props) (c : Click) (st : State) : State * list Effect :=
  if enabled p st c then onClick p c st else (st, []).

(** ** The event loop *)

Inductive Event :=
| UI (c : Click)
| MediaSettled (question : string) (r : Settled MediaStream)
| DataAvailable (chunk : list N)
| RecorderStopped (question : string)
| TranscribeSettled (question : string) (r : Settled TranscribeResponse)
| EvaluateSettled (question : string) (r : Settled EvaluateResponse)
| FinalSettled (r : Settled FinalResponse).

Definition step (p : Props) (ev : Event) (st : State) : State * list Effect :=
  match ev with
  | UI c => click p c st
  | MediaSettled q r => startRecording_settled q r st
  | DataAvailable chunk => ondataavailable chunk st
  | RecorderStopped q => onstop q st
  | TranscribeSettled q r => onstop_settled p q r st
  | EvaluateSettled q r => handleSubmit_settled p q r st
  | FinalSettled r => handleFinalEvaluation_settled r st
  end.

(** Running a sequence of events, collecting the effects in order. *)
Fixpoint run (p : Props) (evs : list Event) (st : State) : State * list Effect :=
  match evs with
  | [] => (st, [])
  | ev :: rest =>
      let '(st1, out1) := step p ev st in
      let '(st2, out2) := run p rest st1 in
      (st2, out1 ++ out2)
  end.

(** The states of a session: what the event loop reaches from [initial]. *)
Inductive reachable (p : Props) : State → Prop :=
| reachable_initial : reachable p initial
| reachable_step (st : State) (ev : Event) :
    reachable p st → reachable p (fst (step p ev st)).

End QuestionsPanel.

(* ===================================================================== *)
(** * AudioUploader *)
(* ===================================================================== *)

Module AudioUploader.

Import JS.

(** The single [useState] cell; [None] is [undefined]. *)
Record State := { uploaded_transcript : option string }.

Definition initial : State := {| uploaded_transcript := Some "" |}.

(** How an [async] handler ends: it returns, or it throws and its promise
    is rejected (nothing in the component catches it). *)
Inductive Completion :=
| Returned (st : State) (out : list Effect)
| Threw (message : string).

(** [handleUpload(e)] up to its [await]. *)
Definition handleUpload (file : list (list N)) (st : State) : State * list Effect :=
  (st, [Post (TranscribeAudio file)]).

(** [handleUpload] once the request has settled:
    [setTranscript(res.data.transcript)], with no check of the field. *)
Definition handleUpload_settled (r : Settled TranscribeResponse) (st : State)
    : Completion :=
  match r with
  | Fulfilled res =>
      match transcribe_data res with
      | Some d => Returned {| uploaded_transcript := transcript d |} []
      | None => Threw "Cannot read properties of undefined (reading 'transcript')"
      end
  | Rejected message => Threw message
  end.

(** What the component shows: [{transcript && <p>...</p>}]. *)
Definition shown (st : State) : option string :=
  if truthy_opt (uploaded_transcript st) then uploaded_transcript st else None.

End AudioUploader.

(* ===================================================================== *)
(** * A concrete session *)
(* ===================================================================== *)

Module Scenario.

Import JS QuestionsPanel.

(** Two general questions and three technical ones, tagged Python, Go,
    Python. *)
Definition props : Props :=
  {| questions :=
       {| general_questions :=
            ["Tell me about yourself"; "Describe a caching bug you fixed"];
          tech_questions :=
            [ {| tq_question := "How do Python generators work?"; technology := "Python" |};
              {| tq_question := "What is a goroutine?"; technology := "Go" |};
              {| tq_question := "What is the GIL?"; technology := "Python" |} ];
          tech_stack := ["Python"; "Go"] |};
     jobDescription := "Senior backend engineer";
     candidateName := "Alice" |}.

Definition transcribed (t : string) : Settled TranscribeResponse :=
  Fulfilled {| transcribe_data := Some {| transcript := Some t |} |}.

Definition graded (g : Z) (fb : string) : Settled EvaluateResponse :=
  Fulfilled {| grade := g; feedback := fb |}.

(** The three technical questions are evaluated in the order of the page,
    with grades [g1], [g2], [g3]. *)
Definition evaluate_all (g1 g2 g3 : Z) (f1 f2 f3 : string) : list Event :=
  [ EvaluateSettled "How do Python generators work?" (graded g1 f1);
    EvaluateSettled "What is a goroutine?" (graded g2 f2);
    EvaluateSettled "What is the GIL?" (graded g3 f3) ].

(** The same, the second Python question first and the first one last. *)
Definition evaluate_all_backwards (g1 g2 g3 : Z) (f1 f2 f3 : string) : list Event :=
  [ EvaluateSettled "What is the GIL?" (graded g3 f3);
    EvaluateSettled "What is a goroutine?" (graded g2 f2);
    EvaluateSettled "How do Python generators work?" (graded g1 f1) ].

(** Recording the caching question from start to transcript. *)
Definition record_caching : list Event :=
  [ UI (ClickRecord "Describe a caching bug you fixed");
    MediaSettled "Describe a caching bug you fixed" (Fulfilled {| tracks := ["audio"] |});
    DataAvailable [82%N; 73%N; 70%N; 70%N];
    UI (ClickStop "Describe a caching bug you fixed");
    RecorderStopped "Describe a caching bug you fixed";
    TranscribeSettled "Describe a caching bug you fixed"
      (transcribed "I once found a stale cache entry...") ].

(** The state once the caching question has been answered. *)
Definition answered : State :=
  setAnswers (insert "Describe a caching bug you fixed" "I once found a stale cache entry...")
    initial.

(** The state while the goroutine question is being recorded. *)
Definition recording_go : State :=
  fst (startRecording_settled "What is a goroutine?"
         (Fulfilled {| tracks := ["audio"] |}) initial).

(** The state while a final evaluation of [answered] is in flight. *)
Definition evaluating : State :=
  fst (handleFinalEvaluation props answered).

(** The job description form as filled in by the scenario of the
    specification. *)
Definition form : JDInput.State :=
  JDInput.setCandidateName "Alice" (JDInput.setJd "Senior backend engineer" JDInput.initial).

End Scenario.

From stdpp Require Import pretty.

Local Open Scope Z_scope.

(* ===================================================================== *)
(** * Decimal numerals *)
(* ===================================================================== *)

Module Numeral.

(** The decimal numeral of an integer, as it is typed into the number
    field: an optional minus sign and the decimal digits, with no leading
    zero. *)
Definition decimal (n : Z) : string := pretty n.

(** Every code unit is a decimal digit. *)
Fixpoint allDigits (s : string) : bool :=
  match s with
  | EmptyString => true
  | String c r => bool_decide (is_Some (JS.digit 10 c)) && allDigits r
  end.

End Numeral.

(* ===================================================================== *)
(** * QuestionsPanel: unmounting, and sessions in which responses follow
      requests *)
(* ===================================================================== *)

Module Lifecycle.

Import JS QuestionsPanel.

(** The cleanup of the [useEffect] hook, run when the panel unmounts: the
    recorder is stopped unless it is inactive.  The tracks of its stream are
    not touched. *)
Definition unmount (st : State) : State * list Effect :=
  match mediaRecorder st with
  | Some rec =>
      match state rec with
      | recording =>
          (set_mediaRecorder
             (Some {| stream := stream rec; state := inactive;
                      onstop_question := onstop_question rec |}) st,
           [RecorderStop])
      | inactive => (st, [])
      end
  | None => (st, [])
  end.

(** A settled evaluation answers a request: an evaluate-answer request for
    the same question is among the effects so far. *)
Definition answers_request (out : list Effect) (ev : Event) : Prop :=
  match ev with
  | EvaluateSettled q _ => ∃ a t, Post (EvaluateAnswer q a t) ∈ out
  | _ => True
  end.

(** Event sequences in which every settled evaluation answers a request
    posted earlier in the sequence. *)
Inductive causal (p : Props) : list Event → Prop :=
| causal_nil : causal p []
| causal_snoc (evs : list Event) (ev : Event) :
    causal p evs →
    answers_request (snd (run p evs initial)) ev →
    causal p (evs ++ [ev]).

(** What an event stores in [answers]: the question and its transcript,
    for a transcription that succeeded. *)
Definition transcript_of (ev : Event) : option (string * string) :=
  match ev with
  | TranscribeSettled q
      (Fulfilled {| transcribe_data := Some {| transcript := Some t |} |}) =>
      if truthy t then Some (q, t) else None
  | _ => None
  end.

(** What an event stores in [grades] and [feedbacks]: the question with its
    grade and feedback, for an evaluation that succeeded. *)
Definition evaluation_of (ev : Event) : option (string * (Z * string)) :=
  match ev with
  | EvaluateSettled q (Fulfilled res) => Some (q, (grade res, feedback res))
  | _ => None
  end.

(** The chunk an event appends to the audio buffer. *)
Definition chunk_of (ev : Event) : option (list N) :=
  match ev with
  | DataAvailable chunk => Some chunk
  | _ => None
  end.

(** The event starts a recorder. *)
Definition starts_recorder (ev : Event) : bool :=
  match ev with
  | MediaSettled _ (Fulfilled _) => true
  | _ => false
  end.

End Lifecycle.

(* ===================================================================== *)
(** * JDInput once the questions arrive, and the App that holds them *)
(* ===================================================================== *)

Module Generation.

Import JS.

(** The [questions] object of a generate-questions response; a key may be
    missing ([None]). *)
Record RawQuestions := {
  raw_general_questions : option (list string);
  raw_tech_questions : option (list QuestionsPanel.TechQuestion);
  raw_tech_stack : option (list string)
}.

(** Body of the response ([res.data]); [questions] may be missing. *)
Record GenerateData := { questions_field : option RawQuestions }.
(** The response; [data] itself may be missing. *)
Record GenerateResponse := { generate_data : option GenerateData }.

(** What the [questions] state of [App] can hold: the initial empty array,
    [undefined], or a received object. *)
Inductive QuestionsValue :=
| EmptyArray
| Undefined
| Received (raw : RawQuestions).

(** What [JDInput] does once the request has settled: calls of the
    [setQuestions] prop, and alerts. *)
Inductive Callback :=
| SetQuestions (v : QuestionsValue)
| Notify (e : Effect).

Definition setTechStacks (v : list string) (st : JDInput.State) : JDInput.State :=
  {| JDInput.jd := JDInput.jd st;
     JDInput.candidateName := JDInput.candidateName st;
     JDInput.techStacks := v;
     JDInput.numQuestions := JDInput.numQuestions st;
     JDInput.yearsExperience := JDInput.yearsExperience st |}.

(** [handleGenerate] once the request has settled.  [setQuestions] is
    called before [questionsData.tech_stack] is read, so a body without
    [questions] passes [undefined] on and then fails into the [catch]. *)
Definition handleGenerate_settled (r : Settled GenerateResponse)
    (st : JDInput.State) : JDInput.State * list Callback :=
  match r with
  | Fulfilled res =>
      match generate_data res with
      | Some d =>
          match questions_field d with
          | Some questionsData =>
              (setTechStacks (default [] (raw_tech_stack questionsData)) st,
               [SetQuestions (Received questionsData)])
          | None =>
              (st, [SetQuestions Undefined;
                    Notify (Alert "Failed to generate questions. Please try again.")])
          end
      | None => (st, [Notify (Alert "Failed to generate questions. Please try again.")])
      end
  | Rejected _ =>
      (st, [Notify (Alert "Failed to generate questions. Please try again.")])
  end.

End Generation.

Module App.

Import JS Generation.

Record State := {
  questions : QuestionsValue;
  jobDescription : string;
  candidateName : string
}.

Definition initial : State :=
  {| questions := EmptyArray; jobDescription := ""; candidateName := "" |}.

(** The props [App] hands to [JDInput]: [setJobDescription],
    [onCandidateNameChange] and [setQuestions]. *)
Definition dispatch (e : Effect) (st : State) : State :=
  match e with
  | SetJobDescription jd =>
      {| questions := questions st; jobDescription := jd;
         candidateName := candidateName st |}
  | OnCandidateNameChange name =>
      {| questions := questions st; jobDescription := jobDescription st;
         candidateName := name |}
  | _ => st
  end.

Definition callback (c : Callback) (st : State) : State :=
  match c with
  | SetQuestions v =>
      {| questions := v; jobDescription := jobDescription st;
         candidateName := candidateName st |}
  | Notify e => dispatch e st
  end.

(** [Object.keys(questions).length] for a received object. *)
Definition keys (raw : RawQuestions) : nat :=
  (length (option_list (raw_general_questions raw))
   + length (option_list (raw_tech_questions raw))
   + length (option_list (raw_tech_stack raw)))%nat.

(** The [questions] prop as [QuestionsPanel] reads it: each field, or the
    empty list ([questions.general_questions || []] and the like). *)
Definition panelQuestions (raw : RawQuestions) : QuestionsPanel.Questions :=
  {| QuestionsPanel.general_questions := default [] (raw_general_questions raw);
     QuestionsPanel.tech_questions := default [] (raw_tech_questions raw);
     QuestionsPanel.tech_stack := default [] (raw_tech_stack raw) |}.

(** One render of [App]: it throws ([Object.keys(undefined)]), or it
    returns, with the props of the questions panel when
    [Object.keys(questions).length > 0]. *)
Inductive Render :=
| Rendered (panel : option QuestionsPanel.Props)
| RenderThrew.

Definition render (st : State) : Render :=
  match questions st with
  | EmptyArray => Rendered None
  | Undefined => RenderThrew
  | Received raw =>
      if bool_decide (0 < keys raw)%nat then
        Rendered (Some {| QuestionsPanel.questions := panelQuestions raw;
                          QuestionsPanel.jobDescription := jobDescription st;
                          QuestionsPanel.candidateName := candidateName st |})
      else Rendered None
  end.

(** One round of the form: the click on Generate Questions, the calls it
    makes on [App], and, when a request went out, its settlement. *)
Definition generate (r : Settled GenerateResponse) (form : JDInput.State)
    (app : State) : JDInput.State * State * list Effect :=
  let '(form1, out) := JDInput.clickGenerate form in
  let app1 := foldl (λ a e, dispatch e a) app out in
  if existsb is_post out then
    let '(form2, cbs) := handleGenerate_settled r form1 in
    (form2, foldl (λ a c, callback c a) app1 cbs,
     out ++ omap (λ c, match c with Notify e => Some e | _ => None end) cbs)
  else (form1, app1, out).

End App.

(* ===================================================================== *)
(** * The Electron main process ([src/electron/main.js]) *)
(* ===================================================================== *)

Module ElectronMain.

(** What the script reads from its environment. *)
Record Env := {
  isDev : bool;
  platform : string;
  dirname : string
}.

(** A path is the list of segments given to [path.join]. *)
Definition Path := list string.

Inductive Url :=
| DevServer
| FileUrl (file : Path).

(** Windows and child processes are objects; each is named by the number
    it was created with. *)
Inductive MainEffect :=
| NewBrowserWindow (w : nat)
| LoadURL (w : nat) (url : Url)
| OpenDevTools (w : nat)
| ShowWindow (w : nat)
| Exec (command : string)
| Warn (msg : string)
| Spawn (child : nat) (executable : Path) (args : list Path) (cwd : Path)
| Kill (child : nat)
| Send (w : nat) (channel message : string)
| AppQuit
| Throw (message : string).

(** The two module variables, the windows Electron has open
    ([BrowserWindow.getAllWindows()]) and the next fresh object number. *)
Record State := {
  mainWindow : option nat;
  pythonProcess : option nat;
  windows : list nat;
  fresh : nat
}.

Definition initial : State :=
  {| mainWindow := None; pythonProcess := None; windows := []; fresh := 0 |}.

(** [startPythonBackend()] *)
Definition startPythonBackend (env : Env) (st : State) : State * list MainEffect :=
  let killed :=
    match pythonProcess st with
    | Some old => [Kill old]
    | None => []
    end in
  let pythonPath := [dirname env; ".."; "python"; "app.py"] in
  let pythonExecutable :=
    if bool_decide (platform env = "win32")
    then [dirname env; ".."; "python"; "venv"; "Scripts"; "python.exe"]
    else [dirname env; ".."; "python"; "venv"; "bin"; "python"] in
  let child := fresh st in
  ({| mainWindow := mainWindow st; pythonProcess := Some child;
      windows := windows st; fresh := S (fresh st) |},
   killed ++ [Spawn child pythonExecutable [pythonPath] [dirname env; ".."]]).

(** [createWindow()] *)
Definition createWindow (env : Env) (st : State) : State * list MainEffect :=
  let w := fresh st in
  let startUrl :=
    if isDev env then DevServer else FileUrl [dirname env; "../dist/index.html"] in
  let st1 :=
    {| mainWindow := Some w; pythonProcess := pythonProcess st;
       windows := windows st ++ [w]; fresh := S (fresh st) |} in
  let '(st2, out) := startPythonBackend env st1 in
  (st2,
   [NewBrowserWindow w; LoadURL w startUrl]
   ++ (if isDev env then [OpenDevTools w] else [])
   ++ out).

Inductive MainEvent :=
| Ready
| ReadyToShow
| NetstatDone (error : bool)
| Closed (w : nat)
| PythonClose (code : option Z)
| WindowAllClosed
| Activate
| WillQuit.

(** The handlers, by the event that runs them.  [Closed w] is the [closed]
    event of window [w], after which Electron no longer lists it;
    [PythonClose code] is the [close] event of a child process, with
    [None] for the [null] code of a process ended by a signal. *)
Definition step (env : Env) (ev : MainEvent) (st : State) : State * list MainEffect :=
  match ev with
  | Ready => createWindow env st
  | ReadyToShow =>
      match mainWindow st with
      | Some w =>
          (st, ShowWindow w ::
               (if isDev env then [Exec "netstat -ano | findstr :5173"] else []))
      | None => (st, [Throw "Cannot read properties of null (reading 'show')"])
      end
  | NetstatDone error =>
      (st, if error
           then [Warn "Vite dev server not detected. Please run `npm run dev` in the renderer directory."]
           else [])
  | Closed w =>
      ({| mainWindow := None; pythonProcess := None;
          windows := filter (λ w', w' ≠ w) (windows st); fresh := fresh st |},
       match pythonProcess st with
       | Some child => [Kill child]
       | None => []
       end)
  | PythonClose code =>
      (st,
       if bool_decide (code ≠ Some 0%Z) then
         match mainWindow st with
         | Some w => [Send w "python-error" "Python backend stopped unexpectedly"]
         | None => []
         end
       else [])
  | WindowAllClosed =>
      (st, if bool_decide (platform env ≠ "darwin") then [AppQuit] else [])
  | Activate =>
      if bool_decide (length (windows st) = 0%nat) then createWindow env st
      else (st, [])
  | WillQuit =>
      ({| mainWindow := mainWindow st; pythonProcess := None;
          windows := windows st; fresh := fresh st |},
       match pythonProcess st with
       | Some child => [Kill child]
       | None => []
       end)
  end.

Fixpoint run (env : Env) (evs : list MainEvent) (st : State)
    : State * list MainEffect :=
  match evs with
  | [] => (st, [])
  | ev :: rest =>
      let '(st1, out1) := step env ev st in
      let '(st2, out2) := run env rest st1 in
      (st2, out1 ++ out2)
  end.

(** Every child process spawned so far has been sent a kill, unless it is
    the one [pythonProcess] refers to. *)
Definition supervised (st : State) (out : list MainEffect) : Prop :=
  ∀ child exe args cwd,
    Spawn child exe args cwd ∈ out →
    Kill child ∈ out ∨ pythonProcess st = Some child.

End ElectronMain.

(* ===================================================================== *)
(** * The packaged launcher (the main script with [dotenv]) *)
(* ===================================================================== *)

Module Launcher.

Import ElectronMain.

(** What the script reads from its environment: [app.isPackaged],
    [process.resourcesPath], [__dirname], [process.platform],
    [process.env], and what [dotenv] parsed from the [.env] file ([None]
    when there is nothing to parse). *)
Record Env := {
  isPackaged : bool;
  resourcesPath : string;
  dirname : string;
  platform : string;
  processEnv : gmap string string;
  parsed : option (gmap string string)
}.

Inductive Target :=
| File (file : Path)
| Url (url : string).

Inductive LauncherEffect :=
| SpawnBackend (child : nat) (executable : Path) (env : gmap string string)
| KillBackend (child : nat)
| NewWindow (w : nat)
| LoadWindow (w : nat) (target : Target)
| DevTools (w : nat)
| QuitApp.

(** The module variable [pythonProcess] and the next fresh object
    number. *)
Record State := {
  pythonProcess : option nat;
  next : nat
}.

Definition initial : State := {| pythonProcess := None; next := 0 |}.

(** [createPythonProcess()]: the [.env] values are laid over
    [process.env]. *)
Definition createPythonProcess (env : Env) (st : State) : State * list LauncherEffect :=
  let pythonExePath :=
    if isPackaged env
    then [resourcesPath env; "app"; "backend_dist"; "app.exe"]
    else [dirname env; ".."; "backend_dist"; "app.exe"] in
  let envVars := default ∅ (parsed env) in
  ({| pythonProcess := Some (next st); next := S (next st) |},
   [SpawnBackend (next st) pythonExePath (envVars ∪ processEnv env)]).

(** [createWindow()] *)
Definition createWindow (env : Env) (st : State) : State * list LauncherEffect :=
  ({| pythonProcess := pythonProcess st; next := S (next st) |},
   NewWindow (next st) ::
   (if isPackaged env
    then [LoadWindow (next st) (File [dirname env; "renderer"; "dist"; "index.html"])]
    else [LoadWindow (next st) (Url "http://localhost:5173"); DevTools (next st)])).

Inductive LauncherEvent :=
| AppReady
| BackendClosed (code : option Z)
| AllWindowsClosed
| AppQuitting.

Definition step (env : Env) (ev : LauncherEvent) (st : State)
    : State * list LauncherEffect :=
  match ev with
  | AppReady =>
      let '(st1, out1) := createPythonProcess env st in
      let '(st2, out2) := createWindow env st1 in
      (st2, out1 ++ out2)
  | BackendClosed _ =>
      ({| pythonProcess := None; next := next st |}, [])
  | AllWindowsClosed =>
      (st, if bool_decide (platform env ≠ "darwin") then [QuitApp] else [])
  | AppQuitting =>
      ({| pythonProcess := None; next := next st |},
       match pythonProcess st with
       | Some child => [KillBackend child]
       | None => []
       end)
  end.

Fixpoint run (env : Env) (evs : list LauncherEvent) (st : State)
    : State * list LauncherEffect :=
  match evs with
  | [] => (st, [])
  | ev :: rest =>
      let '(st1, out1) := step env ev st in
      let '(st2, out2) := run env rest st1 in
      (st2, out1 ++ out2)
  end.

(** The effect is a kill. *)
Definition is_kill (e : LauncherEffect) : bool :=
  match e with KillBackend _ => true | _ => false end.

End Launcher.

(* ===================================================================== *)
(** * Facts about strings *)
(* ===================================================================== *)

Module JSFacts.

Import JS.

Lemma trimEnd_empty (s : string) : trimEnd s = "" ↔ allWhiteSpace s = true.
Proof.
  induction s as [|c r IH]; simpl; [done|].
  destruct (trimEnd r) as [|c' r'] eqn:E.
  - destruct IH as [IH _]. rewrite (IH eq_refl), andb_true_r.
    destruct (isWhiteSpace c); split; congruence.
  - destruct (allWhiteSpace r) eqn:A.
    + destruct IH as [_ IH]. discriminate (IH eq_refl).
    + rewrite andb_false_r. split; discriminate.
Qed.

Lemma trimStart_allWhiteSpace (s : string) :
  allWhiteSpace (trimStart s) = allWhiteSpace s.
Proof.
  induction s as [|c r IH]; simpl; [done|].
  destruct (isWhiteSpace c) eqn:W; simpl; [done|]. by rewrite W.
Qed.

(** [s.trim()] is empty exactly when [s] holds white space only. *)
Lemma trim_empty (s : string) : trim s = "" ↔ allWhiteSpace s = true.
Proof. unfold trim. by rewrite trimEnd_empty, trimStart_allWhiteSpace. Qed.

Lemma truthy_trim (s : string) : truthy (trim s) = negb (allWhiteSpace s).
Proof.
  destruct (allWhiteSpace s) eqn:A.
  - apply trim_empty in A. by rewrite A.
  - destruct (trim s) eqn:T; [|done].
    apply trim_empty in T. congruence.
Qed.

Lemma allWhiteSpace_truthy (s : string) : allWhiteSpace s = false → truthy s = true.
Proof. by destruct s. Qed.

Example trim_inner_space : trim "  a b  " = "a b".
Proof. reflexivity. Qed.

Example trim_only_space : trim (String "009" (String "160" " ")) = "".
Proof. reflexivity. Qed.

Example parseInt_decimal : parseInt "50" = Some 50.
Proof. reflexivity. Qed.

Example parseInt_negative_prefix : parseInt "  -7px" = Some (-7).
Proof. reflexivity. Qed.

Example parseInt_fraction : parseInt "2.5" = Some 2.
Proof. reflexivity. Qed.

Example parseInt_hex : parseInt "0x1f" = Some 31.
Proof. reflexivity. Qed.

Example parseInt_empty : parseInt "" = None.
Proof. reflexivity. Qed.

Example parseInt_zero_defaults : num_or (parseInt "0") 5 = 5.
Proof. reflexivity. Qed.

End JSFacts.

(* ===================================================================== *)
(** * JDInput: validation before the generate-questions request *)
(* ===================================================================== *)

Module JDInputFacts.

Import JS JSFacts JDInput.

Lemma handleGenerate_blank_jd (st : State) :
  allWhiteSpace (jd st) = true →
  handleGenerate st = (st, [Alert "Please enter a job description"]).
Proof. intros H. unfold handleGenerate. by rewrite truthy_trim, H. Qed.

Lemma handleGenerate_blank_name (st : State) :
  allWhiteSpace (jd st) = false →
  allWhiteSpace (candidateName st) = true →
  handleGenerate st = (st, [Alert "Please enter the candidate's name"]).
Proof. intros H1 H2. unfold handleGenerate. by rewrite !truthy_trim, H1, H2. Qed.

Lemma handleGenerate_posts (st : State) :
  allWhiteSpace (jd st) = false →
  allWhiteSpace (candidateName st) = false →
  handleGenerate st =
    (st, [SetJobDescription (jd st); OnCandidateNameChange (candidateName st);
          Post (GenerateQuestions (jd st) (numQuestions st) (yearsExperience st))]).
Proof. intros H1 H2. unfold handleGenerate. by rewrite !truthy_trim, H1, H2. Qed.

(** C5, evaluated on the code.  With the form of the scenario filled in,
    typing 50 into the number-of-questions field stores 50, and Generate
    Questions then posts [num_questions = 50]; typing -3 posts -3.  Nothing
    between the field and the request brings the value back into 1..20. *)
Theorem numQuestions_out_of_range_is_sent :
  numQuestions (onChangeNumQuestions "50" Scenario.form) = 50 ∧
  clickGenerate (onChangeNumQuestions "50" Scenario.form) =
    (onChangeNumQuestions "50" Scenario.form,
     [SetJobDescription "Senior backend engineer"; OnCandidateNameChange "Alice";
      Post (GenerateQuestions "Senior backend engineer" 50 "")]) ∧
  snd (clickGenerate (onChangeNumQuestions "-3" Scenario.form)) =
    [SetJobDescription "Senior backend engineer"; OnCandidateNameChange "Alice";
     Post (GenerateQuestions "Senior backend engineer" (-3) "")].
Proof. repeat split; vm_compute; reflexivity. Qed.

End JDInputFacts.

(* ===================================================================== *)
(** * QuestionsPanel: recording *)
(* ===================================================================== *)

Module RecordingFacts.

Import JS QuestionsPanel.

(** C9.  With no recording session active (the [isRecording] flag is down,
    or there is no media recorder at all), [stopRecording] returns normally
    and does nothing: the whole state, and so the recording flag, the active
    question and the media recorder, is unchanged, and no call is made on a
    recorder or a track.  The Stop Recording button is not even on the page
    then. *)
Theorem stopRecording_idle_noop (p : Props) (q : string) (st : State) :
  isRecording st = false ∨ mediaRecorder st = None →
  stopRecording st = (st, []) ∧
  isRecording (fst (stopRecording st)) = isRecording st ∧
  activeQuestion (fst (stopRecording st)) = activeQuestion st ∧
  mediaRecorder (fst (stopRecording st)) = mediaRecorder st ∧
  click p (ClickStop q) st = (st, []).
Proof.
  intros H.
  assert (E : stopRecording st = (st, [])).
  { unfold stopRecording. destruct H as [H|H]; rewrite H; [|done].
    by destruct (mediaRecorder st). }
  rewrite E. repeat split.
  unfold click. destruct (enabled p st (ClickStop q)); [exact E|done].
Qed.

Lemma stopRecording_idle_noop_witness :
  stopRecording initial = (initial, []) ∧
  isRecording (fst (stopRecording initial)) = isRecording initial ∧
  activeQuestion (fst (stopRecording initial)) = activeQuestion initial ∧
  mediaRecorder (fst (stopRecording initial)) = mediaRecorder initial ∧
  click Scenario.props (ClickStop "What is a goroutine?") initial = (initial, []).
Proof.
  apply (stopRecording_idle_noop Scenario.props "What is a goroutine?" initial).
  left. reflexivity.
Defined.

(** Throughout a session the recording flag is up only while
    [mediaRecorder.current] is a started recorder, and the active question
    is then the one that recorder was started for. *)
Lemma recording_tracks_recorder (p : Props) (st : State) :
  reachable p st →
  isRecording st = true →
  ∃ rec, mediaRecorder st = Some rec ∧ state rec = recording ∧
         activeQuestion st = Some (onstop_question rec).
Proof.
  induction 1 as [|st ev Hr IH]; [discriminate|].
  destruct ev as [c|q0 r|chunk|q0|q0 r|q0 r|r]; simpl.
  - unfold click. destruct (enabled p st c); [|exact IH].
    destruct c as [q0|q0|q0|]; simpl; try exact IH.
    + unfold stopRecording. destruct (mediaRecorder st) as [rec|] eqn:M.
      * destruct (isRecording st) eqn:R; simpl; [discriminate|].
        rewrite R. discriminate.
      * simpl. rewrite M. exact IH.
    + unfold handleSubmit. destruct (JS.or None (answers st !! q0)); [|exact IH].
      destruct (negb (truthy s) || bool_decide (trim s = "")); exact IH.
    + unfold handleFinalEvaluation. case_bool_decide; exact IH.
  - destruct r as [s|m]; simpl; [|exact IH].
    intros _. eexists. repeat split.
  - exact IH.
  - exact IH.
  - destruct r as [res|m]; [|exact IH]. simpl.
    destruct (transcribe_data res) as [d|]; [|exact IH].
    destruct (truthy_opt (transcript d)); [|exact IH].
    unfold handleSubmit. destruct (JS.or _ _) as [s|]; [|exact IH].
    destruct (negb (truthy s) || bool_decide (trim s = "")); exact IH.
  - destruct r as [res|m]; [|exact IH]. simpl.
    destruct (findTechQuestion p q0); exact IH.
  - destruct r as [[[d|]]|m]; simpl; [destruct (success d)|..]; exact IH.
Qed.

(** While recording, the page offers no way to start: the active question
    shows Stop Recording in place of Record Answer, and every other Record
    Answer button is disabled. *)
Lemma record_disabled_while_recording (p : Props) (q : string) (st : State) :
  isRecording st = true → enabled p st (ClickRecord q) = false.
Proof. intros H. simpl. rewrite H. simpl. by rewrite andb_false_r. Qed.

(** While the recording flag is up, a click on Record Answer does not
    reach [startRecording]: the state (active question, media recorder,
    chunk buffer) is unchanged and no capture device is requested.  This is
    the whole of the guard: [startRecording] has none of its own, and the
    flag is raised only once [getUserMedia] has resolved. *)
Lemma start_rejected_while_recording (p : Props) (q : string) (st : State) :
  isRecording st = true →
  click p (ClickRecord q) st = (st, []) ∧
  (∀ q', GetUserMedia q' ∉ snd (click p (ClickRecord q) st)) ∧
  mediaRecorder (fst (click p (ClickRecord q) st)) = mediaRecorder st.
Proof.
  intros H. unfold click. rewrite (record_disabled_while_recording p q st H).
  simpl. repeat split. intros q' Hin. by apply not_elem_of_nil in Hin.
Qed.

Lemma start_rejected_while_recording_witness :
  isRecording Scenario.recording_go = true ∧
  click Scenario.props (ClickRecord "What is the GIL?") Scenario.recording_go
    = (Scenario.recording_go, []).
Proof.
  split; [reflexivity|].
  apply (start_rejected_while_recording
           Scenario.props "What is the GIL?" Scenario.recording_go).
  reflexivity.
Defined.

(** C3, evaluated on the code.  Two Record Answer clicks made before the
    first [getUserMedia] has resolved are both admitted, the flag being
    still down.  When the first request resolves, a recording is active for
    the goroutine question ([isRecording] is true); the second request then
    resolves in that state and [startRecording] goes on, with no check of
    the flag: a second recorder is created and started, it replaces the
    first in [mediaRecorder.current], and two capture sessions run at
    once. *)
Theorem second_session_started_while_recording :
  let first_active :=
    fst (run Scenario.props
           [UI (ClickRecord "What is a goroutine?");
            UI (ClickRecord "What is the GIL?");
            MediaSettled "What is a goroutine?" (Fulfilled {| tracks := ["first"] |})]
           initial) in
  let second :=
    MediaSettled "What is the GIL?" (Fulfilled {| tracks := ["second"] |}) in
  isRecording first_active = true ∧
  mediaRecorder first_active
    = Some {| stream := {| tracks := ["first"] |}; state := recording;
              onstop_question := "What is a goroutine?" |} ∧
  snd (step Scenario.props second first_active) = [RecorderStart] ∧
  mediaRecorder (fst (step Scenario.props second first_active))
    = Some {| stream := {| tracks := ["second"] |}; state := recording;
              onstop_question := "What is the GIL?" |} ∧
  snd (run Scenario.props
         [UI (ClickRecord "What is a goroutine?");
          UI (ClickRecord "What is the GIL?");
          MediaSettled "What is a goroutine?" (Fulfilled {| tracks := ["first"] |});
          second]
         initial)
  = [GetUserMedia "What is a goroutine?"; GetUserMedia "What is the GIL?";
     RecorderStart; RecorderStart].
Proof. vm_compute. repeat split. Qed.

End RecordingFacts.

(* ===================================================================== *)
(** * QuestionsPanel: the final evaluation *)
(* ===================================================================== *)

Module FinalEvaluationFacts.

Import JS QuestionsPanel.

Lemma final_disabled_while_evaluating (p : Props) (st : State) :
  isEvaluating st = true → enabled p st ClickFinal = false.
Proof. intros H. simpl. by rewrite H. Qed.

Lemma handleFinalEvaluation_proceeds (p : Props) (st : State) :
  size (answers st) ≠ 0%nat →
  handleFinalEvaluation p st =
    (setIsEvaluating true st,
     [Post (FinalEvaluation (jobDescription p) (qaPairs p st)
              (candidateName p) (yearsExperience st))]).
Proof. intros H. unfold handleFinalEvaluation. by rewrite bool_decide_eq_false_2. Qed.


(** C2.  While [isEvaluating] is true, triggering the final evaluation again
    does nothing: state unchanged, no effect.  Consequently two triggers in
    a row, the first one admitted, put exactly one final-evaluation request
    on the wire; the first trigger raises [isEvaluating] and the second one
    is the no-op. *)
Theorem final_evaluation_single_flight (p : Props) (st : State) :
  (isEvaluating st = true → click p ClickFinal st = (st, [])) ∧
  (enabled p st ClickFinal = true →
   isEvaluating (fst (click p ClickFinal st)) = true ∧
   run p [UI ClickFinal; UI ClickFinal] st = click p ClickFinal st ∧
   length (filter (λ e, is_post e = true)
             (snd (run p [UI ClickFinal; UI ClickFinal] st))) = 1%nat ∧
   length (filter (λ e, is_post_final e = true)
             (snd (run p [UI ClickFinal; UI ClickFinal] st))) = 1%nat).
Proof.
  split.
  - intros H. unfold click. by rewrite final_disabled_while_evaluating.
  - intros En.
    assert (Hsz : size (answers st) ≠ 0%nat).
    { simpl in En. apply negb_true_iff, orb_false_iff in En as [_ En].
      by apply bool_decide_eq_false in En. }
    assert (Hc : click p ClickFinal st = handleFinalEvaluation p st).
    { unfold click. by rewrite En. }
    assert (Hrun : run p [UI ClickFinal; UI ClickFinal] st = click p ClickFinal st).
    { simpl. rewrite Hc, handleFinalEvaluation_proceeds by done.
      unfold click at 1. by rewrite final_disabled_while_evaluating. }
    rewrite Hrun, Hc, handleFinalEvaluation_proceeds by done.
    repeat split.
Qed.

Lemma final_evaluation_single_flight_witness :
  click Scenario.props ClickFinal Scenario.evaluating = (Scenario.evaluating, []) ∧
  length (filter (λ e, is_post_final e = true)
            (snd (run Scenario.props [UI ClickFinal; UI ClickFinal] Scenario.answered)))
    = 1%nat.
Proof.
  split.
  - apply (proj1 (final_evaluation_single_flight Scenario.props Scenario.evaluating)).
    reflexivity.
  - apply (proj2 (final_evaluation_single_flight Scenario.props Scenario.answered)).
    vm_compute. reflexivity.
Defined.

(** C10.  However the final-evaluation request ends (a response with
    [success] true, a response with [success] false, a response without a
    body, or a request that throws), the continuation leaves [isEvaluating]
    false; and from the resulting state the final evaluation can be
    triggered again as soon as there is an answer: the button is enabled and
    a click sends a request. *)
Theorem isEvaluating_released (p : Props) (r : Settled FinalResponse) (st : State) :
  isEvaluating (fst (handleFinalEvaluation_settled r st)) = false ∧
  answers (fst (handleFinalEvaluation_settled r st)) = answers st ∧
  (size (answers st) ≠ 0%nat →
   enabled p (fst (handleFinalEvaluation_settled r st)) ClickFinal = true ∧
   length (filter (λ e, is_post_final e = true)
             (snd (click p ClickFinal (fst (handleFinalEvaluation_settled r st)))))
     = 1%nat).
Proof.
  set (st' := fst (handleFinalEvaluation_settled r st)).
  assert (H1 : isEvaluating st' = false).
  { subst st'. destruct r as [[[d|]]|m]; simpl; [destruct (success d)|..]; done. }
  assert (H2 : answers st' = answers st).
  { subst st'. destruct r as [[[d|]]|m]; simpl; [destruct (success d)|..]; done. }
  split; [done|]. split; [done|]. intros Hsz.
  assert (En : enabled p st' ClickFinal = true).
  { simpl. rewrite H1, H2. by rewrite bool_decide_eq_false_2. }
  split; [done|].
  unfold click. rewrite En. simpl.
  rewrite handleFinalEvaluation_proceeds by (by rewrite H2). done.
Qed.

Lemma isEvaluating_released_witness :
  isEvaluating (fst (handleFinalEvaluation_settled (Rejected "Network Error")
                       Scenario.evaluating)) = false ∧
  enabled Scenario.props
    (fst (handleFinalEvaluation_settled (Rejected "Network Error") Scenario.evaluating))
    ClickFinal = true.
Proof.
  pose proof (isEvaluating_released Scenario.props (Rejected "Network Error")
                Scenario.evaluating) as (H1 & _ & H3).
  split; [exact H1|]. apply H3. vm_compute. discriminate.
Defined.





End FinalEvaluationFacts.

(* ===================================================================== *)
(** * QuestionsPanel: submitting and transcribing *)
(* ===================================================================== *)

Module SubmitFacts.

Import JS JSFacts QuestionsPanel.

(** The test [!answer || answer.trim() === ''] of [handleSubmit]. *)
Lemma refused_allWhiteSpace (a : string) :
  negb (truthy a) || bool_decide (trim a = "") = allWhiteSpace a.
Proof.
  destruct (allWhiteSpace a) eqn:A.
  - rewrite (bool_decide_eq_true_2 _ (proj2 (trim_empty a) A)). apply orb_true_r.
  - rewrite (allWhiteSpace_truthy a A). simpl. apply bool_decide_eq_false_2.
    intros T. apply trim_empty in T. congruence.
Qed.

Lemma handleSubmit_blank (p : Props) (q : string) (answerText : option string)
    (st : State) :
  blank (JS.or answerText (answers st !! q)) = true →
  handleSubmit p q answerText st =
    (st, [Alert "Please provide an answer before submitting."]).
Proof.
  unfold handleSubmit. destruct (JS.or answerText (answers st !! q)) as [a|]; [|done].
  simpl. intros H. by rewrite refused_allWhiteSpace, H.
Qed.

Lemma handleSubmit_posts (p : Props) (q a : string) (answerText : option string)
    (st : State) :
  JS.or answerText (answers st !! q) = Some a →
  allWhiteSpace a = false →
  handleSubmit p q answerText st =
    (st, [Post (EvaluateAnswer q a (technology <$> findTechQuestion p q))]).
Proof.
  unfold handleSubmit. intros -> H. by rewrite refused_allWhiteSpace, H.
Qed.

(** The evaluate-answer requests of [handleSubmit]. *)
Lemma handleSubmit_request (p : Props) (q0 : string) (answerText : option string)
    (st : State) (q a : string) (t : option string) :
  Post (EvaluateAnswer q a t) ∈ snd (handleSubmit p q0 answerText st) ↔
  q = q0 ∧ t = technology <$> findTechQuestion p q ∧
  JS.or answerText (answers st !! q0) = Some a ∧ allWhiteSpace a = false.
Proof.
  destruct (JS.or answerText (answers st !! q0)) as [a0|] eqn:E.
  - destruct (allWhiteSpace a0) eqn:A.
    + rewrite handleSubmit_blank by (by rewrite E). simpl.
      rewrite list_elem_of_singleton. split; [discriminate|].
      intros (_ & _ & [= ->] & ?). congruence.
    + rewrite (handleSubmit_posts p q0 a0) by done. simpl.
      rewrite list_elem_of_singleton. split.
      * intros [= -> -> ->]. done.
      * intros (-> & -> & [= ->] & _). done.
  - rewrite handleSubmit_blank by (by rewrite E). simpl.
    rewrite list_elem_of_singleton. split; [discriminate|].
    intros (_ & _ & ? & _). discriminate.
Qed.

(** Handlers that never post an evaluate-answer request. *)
Lemma startRecording_no_evaluate (q0 : string) (st : State) (e : Effect) :
  e ∈ snd (startRecording q0 st) → is_post_evaluate e = false.
Proof. simpl. by intros ->%list_elem_of_singleton. Qed.

Lemma stopRecording_no_evaluate (st : State) (e : Effect) :
  e ∈ snd (stopRecording st) → is_post_evaluate e = false.
Proof.
  unfold stopRecording. destruct (mediaRecorder st) as [rec|]; simpl.
  - destruct (isRecording st); simpl; [|by intros ?%elem_of_nil].
    intros [->|Hin]%elem_of_cons; [done|].
    by apply list_elem_of_fmap in Hin as (k & -> & _).
  - by intros ?%elem_of_nil.
Qed.

Lemma handleFinalEvaluation_no_evaluate (p : Props) (st : State) (e : Effect) :
  e ∈ snd (handleFinalEvaluation p st) → is_post_evaluate e = false.
Proof.
  unfold handleFinalEvaluation. case_bool_decide; simpl;
    by intros ->%list_elem_of_singleton.
Qed.

Lemma startRecording_settled_no_evaluate (q0 : string) (r : Settled MediaStream)
    (st : State) (e : Effect) :
  e ∈ snd (startRecording_settled q0 r st) → is_post_evaluate e = false.
Proof. destruct r; simpl; by intros ->%list_elem_of_singleton. Qed.

Lemma handleSubmit_settled_no_evaluate (p : Props) (q0 : string)
    (r : Settled EvaluateResponse) (st : State) (e : Effect) :
  e ∈ snd (handleSubmit_settled p q0 r st) → is_post_evaluate e = false.
Proof.
  destruct r; simpl.
  - destruct (findTechQuestion p q0); simpl; by intros ?%elem_of_nil.
  - by intros ->%list_elem_of_singleton.
Qed.

Lemma handleFinalEvaluation_settled_no_evaluate (r : Settled FinalResponse)
    (st : State) (e : Effect) :
  e ∈ snd (handleFinalEvaluation_settled r st) → is_post_evaluate e = false.
Proof.
  destruct r as [[[d|]]|m]; simpl; [destruct (success d); simpl|..];
    first [by intros ?%elem_of_nil | by intros ->%list_elem_of_singleton].
Qed.

(** The recording scenario of the specification, event by event: the
    transcript is stored, the grade is not there yet, and the effects end
    with the transcription and evaluation requests. *)
Example record_caching_run :
  let '(st, out) := run Scenario.props Scenario.record_caching initial in
  answers st !! "Describe a caching bug you fixed"
    = Some "I once found a stale cache entry..." ∧
  grades st !! "Describe a caching bug you fixed" = None ∧
  isRecording st = false ∧ activeQuestion st = None ∧
  out = [ GetUserMedia "Describe a caching bug you fixed";
          RecorderStart; RecorderStop; TrackStop "audio";
          Post (TranscribeAudio [[82%N; 73%N; 70%N; 70%N]]);
          Post (EvaluateAnswer "Describe a caching bug you fixed"
                  "I once found a stale cache entry..." None) ].
Proof. vm_compute. repeat split. Qed.

(** C1, as the code has it: a transcription that succeeds sends the
    evaluate-answer request by itself.  From the initial state, with no
    click at all, the settled transcription of the caching question posts
    its transcript for grading. *)
Lemma transcription_alone_posts_evaluate :
  snd (step Scenario.props
         (TranscribeSettled "Describe a caching bug you fixed"
            (Scenario.transcribed "I once found a stale cache entry..."))
         initial)
  = [Post (EvaluateAnswer "Describe a caching bug you fixed"
             "I once found a stale cache entry..." None)].
Proof. vm_compute. reflexivity. Qed.

(** C1, amended.  One step of the panel posts an evaluate-answer request
    for question [q] with answer [a] exactly in two situations: the Submit
    Answer button of [q] is clicked while [a] is the stored answer of [q],
    or the transcription of a recording of [q] has just succeeded with
    transcript [a]; in both, [a] is not blank.  The request carries the
    technology of the question, if it is a technical one.  No other event
    (starting or stopping a recording, audio data, a settled evaluation or
    final evaluation, a failed transcription) posts one. *)
Theorem evaluate_request_sources (p : Props) (ev : Event) (st : State)
    (q a : string) (t : option string) :
  Post (EvaluateAnswer q a t) ∈ snd (step p ev st) ↔
  t = technology <$> findTechQuestion p q ∧ allWhiteSpace a = false ∧
  ((ev = UI (ClickSubmit q) ∧ q ∈ allQuestions p ∧ answers st !! q = Some a) ∨
   (∃ res d, ev = TranscribeSettled q (Fulfilled res) ∧
             transcribe_data res = Some d ∧ transcript d = Some a)).
Proof.
  split.
  - destruct ev as [c|q0 r|chunk|q0|q0 r|q0 r|r]; simpl.
    + unfold click. destruct (enabled p st c) eqn:En; [|by intros ?%elem_of_nil].
      destruct c as [q0|q0|q0|]; simpl.
      * by intros ?%startRecording_no_evaluate.
      * by intros ?%stopRecording_no_evaluate.
      * intros (-> & -> & Hor & Ha)%handleSubmit_request.
        split; [done|]. split; [done|]. left.
        simpl in En. apply andb_true_iff in En as [Hq Htr].
        apply bool_decide_eq_true in Hq.
        unfold JS.or in Hor. simpl in Hor. done.
      * by intros ?%handleFinalEvaluation_no_evaluate.
    + by intros ?%startRecording_settled_no_evaluate.
    + by intros ?%elem_of_nil.
    + by intros [=]%list_elem_of_singleton.
    + destruct r as [res|m]; simpl; [|by intros [=]%list_elem_of_singleton].
      destruct (transcribe_data res) as [d|] eqn:D;
        [|by intros [=]%list_elem_of_singleton].
      destruct (transcript d) as [tr|] eqn:T; simpl;
        [|by intros [=]%list_elem_of_singleton].
      destruct (truthy tr) eqn:Tr; [|by intros [=]%list_elem_of_singleton].
      intros (-> & -> & Hor & Ha)%handleSubmit_request.
      unfold JS.or in Hor. simpl in Hor. rewrite Tr in Hor.
      injection Hor as ->.
      split; [done|]. split; [done|]. right. by exists res, d.
    + by intros ?%handleSubmit_settled_no_evaluate.
    + by intros ?%handleFinalEvaluation_settled_no_evaluate.
  - intros (-> & Ha & [(-> & Hq & Hans)|(res & d & -> & D & T)]); simpl.
    + unfold click. simpl.
      rewrite (bool_decide_eq_true_2 _ Hq), Hans. simpl.
      rewrite (allWhiteSpace_truthy a Ha).
      apply handleSubmit_request. unfold JS.or. simpl. by rewrite Hans.
    + rewrite D, T. simpl. rewrite (allWhiteSpace_truthy a Ha).
      apply handleSubmit_request. unfold JS.or. simpl.
      by rewrite (allWhiteSpace_truthy a Ha).
Qed.

End SubmitFacts.

(* ===================================================================== *)
(** * QuestionsPanel: the per-technology grades *)
(* ===================================================================== *)

Module AggregateFacts.

Import JS QuestionsPanel.

(** Only a settled, successful evaluation of a technical question writes
    to [techStackGrades]. *)
Lemma step_techStackGrades (p : Props) (ev : Event) (st : State) :
  techStackGrades (fst (step p ev st)) =
    match ev with
    | EvaluateSettled q (Fulfilled res) =>
        match findTechQuestion p q with
        | Some tq => <[technology tq := grade res]> (techStackGrades st)
        | None => techStackGrades st
        end
    | _ => techStackGrades st
    end.
Proof.
  destruct ev as [c|q0 r|chunk|q0|q0 r|q0 r|r]; simpl.
  - unfold click. destruct (enabled p st c); [|done].
    destruct c as [q0|q0|q0|]; simpl; try done.
    + unfold stopRecording. destruct (mediaRecorder st); [|done].
      by destruct (isRecording st).
    + unfold handleSubmit. destruct (JS.or None (answers st !! q0)); [|done].
      by destruct (negb (truthy s) || bool_decide (trim s = "")).
    + unfold handleFinalEvaluation. by case_bool_decide.
  - by destruct r.
  - done.
  - done.
  - destruct r as [res|m]; [|done]. simpl.
    destruct (transcribe_data res) as [d|]; [|done].
    destruct (truthy_opt (transcript d)); [|done].
    unfold handleSubmit.
    destruct (JS.or _ _) as [s|]; [|done].
    by destruct (negb (truthy s) || bool_decide (trim s = "")).
  - destruct r as [res|m]; [|done]. simpl.
    by destruct (findTechQuestion p q0).
  - destruct r as [[[d|]]|m]; simpl; [destruct (success d)|..]; done.
Qed.

Lemma run_snoc (p : Props) (evs : list Event) (ev : Event) (st : State) :
  fst (run p (evs ++ [ev]) st) = fst (step p ev (fst (run p evs st))).
Proof.
  revert st. induction evs as [|e evs IH]; intros st; simpl.
  - by destruct (step p ev st).
  - destruct (step p e st) as [st1 out1]. specialize (IH st1).
    destruct (run p (evs ++ [ev]) st1), (run p evs st1). exact IH.
Qed.

(** A list that ends in [x], cut at one of its elements. *)
Lemma snoc_eq_middle {A} (l pre post : list A) (x y : A) :
  l ++ [x] = pre ++ y :: post →
  (post = [] ∧ l = pre ∧ x = y) ∨
  (∃ post', post = post' ++ [x] ∧ l = pre ++ y :: post').
Proof.
  destruct post as [|z post _] using rev_ind; intros E.
  - left. apply app_inj_tail in E as [-> ->]. done.
  - right. exists post. rewrite app_comm_cons, app_assoc in E.
    apply app_inj_tail in E as [-> ->]. done.
Qed.

Section Aggregate.

Variable p : Props.
Hypothesis unique_questions : NoDup (map tq_question (techQuestions p)).

(** With distinct question texts, [find] returns the technical question
    of that text. *)
Lemma tagged_find (q tech : string) :
  tagged p q tech ↔ technology <$> findTechQuestion p q = Some tech.
Proof.
  unfold tagged, findTechQuestion.
  induction (techQuestions p) as [|x l IH]; simpl in *.
  - split; [|done]. intros (tq & Hin & _). by apply elem_of_nil in Hin.
  - apply NoDup_cons in unique_questions as [Hx Hl]. specialize (IH Hl).
    case_bool_decide as Hq; simpl.
    + split.
      * intros (tq & [->|Hin]%elem_of_cons & Hq' & <-); [done|].
        exfalso. apply Hx. rewrite Hq, <- Hq'.
        apply list_elem_of_fmap. by exists tq.
      * intros [= <-]. exists x. split; [apply elem_of_cons; by left|done].
    + rewrite <- IH. split.
      * intros (tq & [->|Hin]%elem_of_cons & Hq' & <-); [done|]. by exists tq.
      * intros (tq & Hin & H'). exists tq. split; [apply elem_of_cons; by right|done].
Qed.

Lemma step_tagged (q tech : string) (res : EvaluateResponse) (st : State) :
  tagged p q tech →
  techStackGrades (fst (step p (EvaluateSettled q (Fulfilled res)) st)) !! tech
    = Some (grade res).
Proof.
  intros Ht. rewrite step_techStackGrades. apply tagged_find in Ht.
  destruct (findTechQuestion p q) as [tq|]; [|done].
  injection Ht as <-. apply lookup_insert_eq.
Qed.

Lemma step_not_tagged (ev : Event) (tech : string) (st : State) :
  (∀ q res, ev = EvaluateSettled q (Fulfilled res) → ¬ tagged p q tech) →
  techStackGrades (fst (step p ev st)) !! tech = techStackGrades st !! tech.
Proof.
  intros Hn. rewrite step_techStackGrades.
  destruct ev as [c|q0 r|chunk|q0|q0 r|q0 r|r]; try done.
  destruct r as [res|m]; [|done].
  destruct (findTechQuestion p q0) as [tq|] eqn:F; [|done].
  apply lookup_insert_ne. intros <-.
  apply (Hn q0 res eq_refl). apply tagged_find. by rewrite F.
Qed.

(** Every event either records a grade for [tech] or leaves it alone. *)
Lemma event_tagged_dec (ev : Event) (tech : string) :
  (∃ q res, ev = EvaluateSettled q (Fulfilled res) ∧ tagged p q tech) ∨
  (∀ q res, ev = EvaluateSettled q (Fulfilled res) → ¬ tagged p q tech).
Proof.
  destruct ev as [c|q0 r|chunk|q0|q0 r|q0 r|r]; try (right; discriminate).
  destruct r as [res|m]; [|right; discriminate].
  destruct (decide (technology <$> findTechQuestion p q0 = Some tech)) as [Y|N].
  - left. exists q0, res. split; [done|]. by apply tagged_find.
  - right. intros q res' [= <- <-] Ht. by apply tagged_find in Ht.
Qed.

(** The grade held for [tech] is the one of the last successful evaluation
    of a question tagged [tech]. *)
Lemma techStackGrades_latest (evs : list Event) (tech : string) (g : Z) :
  techStackGrades (fst (run p evs initial)) !! tech = Some g ↔
  ∃ pre q res post,
    evs = pre ++ EvaluateSettled q (Fulfilled res) :: post ∧
    grade res = g ∧ tagged p q tech ∧
    ∀ q' res', EvaluateSettled q' (Fulfilled res') ∈ post → ¬ tagged p q' tech.
Proof.
  revert g. induction evs as [|ev evs IH] using rev_ind; intros g.
  - simpl. rewrite lookup_empty. split; [done|].
    intros (pre & q & res & post & E & _). by destruct pre.
  - rewrite run_snoc.
    destruct (event_tagged_dec ev tech) as [(q & res & -> & Ht)|Hn].
    + rewrite (step_tagged q tech res _ Ht). split.
      * intros [= <-]. exists evs, q, res, []. repeat split; [done|].
        intros q' res' Hin. by apply elem_of_nil in Hin.
      * intros (pre & q1 & res1 & post & E & <- & Ht1 & Hpost).
        apply snoc_eq_middle in E as [(_ & _ & [= _ <-])|(post' & -> & _)]; [done|].
        exfalso. apply (Hpost q res); [|done].
        apply elem_of_app. right. by apply list_elem_of_singleton.
    + rewrite (step_not_tagged ev tech _ Hn), IH. split.
      * intros (pre & q & res & post & -> & <- & Ht & Hpost).
        exists pre, q, res, (post ++ [ev]). rewrite <- app_assoc. repeat split; [done|].
        intros q' res' [Hin|Heq%list_elem_of_singleton]%elem_of_app;
          [by apply (Hpost q' res')|by apply (Hn q' res')].
      * intros (pre & q & res & post & E & <- & Ht & Hpost).
        apply snoc_eq_middle in E as [(_ & _ & ->)|(post' & -> & ->)].
        { exfalso. by apply (Hn q res). }
        exists pre, q, res, post'. repeat split; [done|].
        intros q' res' Hin. apply (Hpost q' res').
        apply elem_of_app. by left.
Qed.

(** The technologies that hold a grade are those of the technical
    questions that were evaluated. *)
Lemma techStackGrades_dom (evs : list Event) (tech : string) :
  tech ∈ dom (techStackGrades (fst (run p evs initial))) ↔
  ∃ q res, EvaluateSettled q (Fulfilled res) ∈ evs ∧ tagged p q tech.
Proof.
  rewrite elem_of_dom.
  induction evs as [|ev evs IH] using rev_ind.
  - simpl. rewrite lookup_empty. split; [by intros [? ?]|].
    intros (q & res & Hin & _). by apply elem_of_nil in Hin.
  - rewrite run_snoc.
    destruct (event_tagged_dec ev tech) as [(q & res & -> & Ht)|Hn].
    + rewrite (step_tagged q tech res _ Ht). split; [|by eexists].
      intros _. exists q, res. split; [|done].
      apply elem_of_app. right. by apply list_elem_of_singleton.
    + rewrite (step_not_tagged ev tech _ Hn), IH. split.
      * intros (q & res & Hin & Ht). exists q, res. split; [|done].
        apply elem_of_app. by left.
      * intros (q & res & [Hin|Heq%list_elem_of_singleton]%elem_of_app & Ht).
        { by exists q, res. }
        exfalso. by apply (Hn q res).
Qed.

End Aggregate.

Lemma scenario_unique_questions :
  NoDup (map tq_question (techQuestions Scenario.props)).
Proof. apply (bool_decide_unpack _). vm_compute. exact I. Qed.

(** C6.  Whatever the events of a session, the aggregate maps a technology
    to the grade of the last successful evaluation received for a technical
    question tagged with it, and its keys are the technologies of the
    technical questions evaluated so far (question texts being distinct, as
    the data model requires).  In the session with technical questions
    tagged Python, Go, Python, evaluating all three leaves exactly two keys;
    Python holds the grade of whichever of its two questions was evaluated
    last. *)
Theorem technology_grade_aggregate :
  (∀ (p : Props) (evs : list Event),
     NoDup (map tq_question (techQuestions p)) →
     let aggregate := techStackGrades (fst (run p evs initial)) in
     (∀ tech g,
        aggregate !! tech = Some g ↔
        ∃ pre q res post,
          evs = pre ++ EvaluateSettled q (Fulfilled res) :: post ∧
          grade res = g ∧ tagged p q tech ∧
          ∀ q' res', EvaluateSettled q' (Fulfilled res') ∈ post → ¬ tagged p q' tech) ∧
     (∀ tech,
        tech ∈ dom aggregate ↔
        ∃ q res, EvaluateSettled q (Fulfilled res) ∈ evs ∧ tagged p q tech)) ∧
  (∀ g1 g2 g3 f1 f2 f3,
     let aggregate :=
       techStackGrades
         (fst (run Scenario.props (Scenario.evaluate_all g1 g2 g3 f1 f2 f3) initial)) in
     let backwards :=
       techStackGrades
         (fst (run Scenario.props
                 (Scenario.evaluate_all_backwards g1 g2 g3 f1 f2 f3) initial)) in
     size aggregate = 2%nat ∧
     aggregate !! "Python" = Some g3 ∧ aggregate !! "Go" = Some g2 ∧
     size backwards = 2%nat ∧
     backwards !! "Python" = Some g1 ∧ backwards !! "Go" = Some g2).
Proof.
  split.
  - intros p evs Hnd aggregate. split.
    + intros tech g. by apply techStackGrades_latest.
    + intros tech. by apply techStackGrades_dom.
  - intros g1 g2 g3 f1 f2 f3. repeat split; vm_compute; reflexivity.
Qed.

Lemma technology_grade_aggregate_witness :
  techStackGrades
    (fst (run Scenario.props (Scenario.evaluate_all 6 7 9 "ok" "good" "great") initial))
    !! "Python" = Some 9.
Proof.
  apply (proj1 (proj1 technology_grade_aggregate Scenario.props
                  (Scenario.evaluate_all 6 7 9 "ok" "good" "great")
                  scenario_unique_questions) "Python" 9).
  exists [EvaluateSettled "How do Python generators work?" (Scenario.graded 6 "ok");
          EvaluateSettled "What is a goroutine?" (Scenario.graded 7 "good")],
         "What is the GIL?", {| grade := 9; feedback := "great" |}, [].
  split; [reflexivity|]. split; [reflexivity|]. split.
  - exists {| tq_question := "What is the GIL?"; technology := "Python" |}.
    split; [|split; reflexivity].
    unfold techQuestions. simpl. repeat constructor.
  - intros q' res' Hin. by apply elem_of_nil in Hin.
Defined.

End AggregateFacts.

(* ===================================================================== *)
(** * Validation before any request *)
(* ===================================================================== *)

Module ValidationFacts.

Import JS JSFacts QuestionsPanel.

(** C8.  A job description or a candidate name that is empty or white
    space only stops [handleGenerate] at an alert: the form is unchanged and
    no request is sent (the Generate Questions button is disabled as well).
    An answer that is missing, empty or white space only stops
    [handleSubmit] at an alert, with no evaluate-answer request; a click on
    Submit Answer for a question with such a stored answer sends nothing
    either. *)
Theorem validation_blocks_requests (form : JDInput.State) (p : Props) (q : string)
    (answerText : option string) (st : State) :
  (allWhiteSpace (JDInput.jd form) = true ∨
   allWhiteSpace (JDInput.candidateName form) = true →
   (∃ msg, JDInput.handleGenerate form = (form, [Alert msg])) ∧
   JDInput.clickGenerate form = (form, [])) ∧
  (blank (JS.or answerText (answers st !! q)) = true →
   handleSubmit p q answerText st =
     (st, [Alert "Please provide an answer before submitting."])) ∧
  (blank (answers st !! q) = true →
   fst (click p (ClickSubmit q) st) = st ∧
   ∀ e, e ∈ snd (click p (ClickSubmit q) st) → is_post e = false).
Proof.
  split; [|split].
  - intros H. split.
    + destruct (allWhiteSpace (JDInput.jd form)) eqn:J.
      * eexists. by apply JDInputFacts.handleGenerate_blank_jd.
      * destruct H as [H|H]; [done|].
        eexists. by apply JDInputFacts.handleGenerate_blank_name.
    + unfold JDInput.clickGenerate, JDInput.generateDisabled.
      rewrite !truthy_trim, !negb_involutive.
      destruct H as [-> | ->]; [done|]. by rewrite orb_true_r.
  - apply SubmitFacts.handleSubmit_blank.
  - intros H. unfold click.
    destruct (enabled p st (ClickSubmit q)); simpl.
    + rewrite SubmitFacts.handleSubmit_blank.
      * split; [done|]. by intros e ->%list_elem_of_singleton.
      * unfold JS.or. simpl. done.
    + split; [done|]. by intros e ?%elem_of_nil.
Qed.

Lemma validation_blocks_requests_witness :
  JDInput.clickGenerate (JDInput.setJd "   " Scenario.form)
    = (JDInput.setJd "   " Scenario.form, []) ∧
  handleSubmit Scenario.props "What is a goroutine?" (Some " ") Scenario.answered
    = (Scenario.answered, [Alert "Please provide an answer before submitting."]) ∧
  fst (click Scenario.props (ClickSubmit "What is a goroutine?") Scenario.answered)
    = Scenario.answered.
Proof.
  pose proof (validation_blocks_requests (JDInput.setJd "   " Scenario.form)
                Scenario.props "What is a goroutine?" (Some " ") Scenario.answered)
    as (H1 & H2 & H3).
  split; [|split].
  - apply H1. left. reflexivity.
  - apply H2. vm_compute. reflexivity.
  - apply H3. vm_compute. reflexivity.
Defined.

End ValidationFacts.

(* ===================================================================== *)
(** * A transcription response without a transcript *)
(* ===================================================================== *)

Module TranscriptionFacts.

Import JS QuestionsPanel.

(** In the questions panel, a response with no body, no [transcript] field
    or an empty transcript is an error: nothing is stored, nothing is
    submitted, and the failure is shown. *)
Lemma onstop_settled_missing_transcript (p : Props) (q : string)
    (res : TranscribeResponse) (st : State) :
  (transcribe_data res = None ∨
   ∃ d, transcribe_data res = Some d ∧ truthy_opt (transcript d) = false) →
  onstop_settled p q (Fulfilled res) st =
    (st, [Alert "Failed to transcribe audio: Invalid response format from server"]).
Proof.
  intros [H|(d & H & T)]; simpl; rewrite H; [done|]. by rewrite T.
Qed.

(** C7, evaluated on the code.  In the audio uploader the same malformed
    response, a body with no [transcript] field, is accepted: the handler
    returns normally with no effect at all, stores [undefined] as the
    transcript, and the page shows nothing. *)
Theorem handleUpload_accepts_missing_transcript (st : AudioUploader.State) :
  AudioUploader.handleUpload_settled
    (Fulfilled {| transcribe_data := Some {| transcript := None |} |}) st
  = AudioUploader.Returned {| AudioUploader.uploaded_transcript := None |} [] ∧
  AudioUploader.shown {| AudioUploader.uploaded_transcript := None |} = None.
Proof. split; reflexivity. Qed.

End TranscriptionFacts.

(* ===================================================================== *)
(** * QuestionsPanel: what a session stores *)
(* ===================================================================== *)

Module StoreFacts.

Import JS QuestionsPanel.

(** Case analysis on one step of the panel, down to the handlers that
    return their state unchanged. *)
Ltac step_cases ev :=
  destruct ev as [[?|?|?|]|? [?|?]|?|?|? [[[[[?|]]|]]|?]|? [?|?]|[[[?|]]|?]];
  repeat first
    [ progress simpl
    | progress unfold click, stopRecording, handleSubmit, handleFinalEvaluation
    | match goal with
      | |- context [if ?b then _ else _] => destruct b eqn:?
      | |- context [match ?x with _ => _ end] => destruct x eqn:?
      end ].

(** The event loop, one event added at the end. *)
Lemma run_snoc_full (p : Props) (evs : list Event) (ev : Event) (st : State) :
  run p (evs ++ [ev]) st =
    (fst (step p ev (fst (run p evs st))),
     snd (run p evs st) ++ snd (step p ev (fst (run p evs st)))).
Proof.
  revert st. induction evs as [|e evs IH]; intros st; simpl.
  - destruct (step p ev st). by rewrite app_nil_r.
  - destruct (step p e st) as [st1 out1]. rewrite (IH st1).
    destruct (run p evs st1) as [st2 out2]. simpl.
    destruct (step p ev st2). simpl. by rewrite app_assoc.
Qed.

Lemma run_app (p : Props) (evs1 evs2 : list Event) (st : State) :
  run p (evs1 ++ evs2) st =
    (fst (run p evs2 (fst (run p evs1 st))),
     snd (run p evs1 st) ++ snd (run p evs2 (fst (run p evs1 st)))).
Proof.
  revert st. induction evs1 as [|e evs IH]; intros st; simpl.
  - by destruct (run p evs2 st).
  - destruct (step p e st) as [st1 out1]. rewrite (IH st1).
    destruct (run p evs st1) as [st2 out2]. simpl. by rewrite app_assoc.
Qed.

(** ** Last write wins *)

Section LastWrite.

Context {V : Type}.
Variable p : Props.
Variable field : State → gmap string V.
Variable write : Event → option (string * V).

Hypothesis field_initial : field initial = ∅.
Hypothesis field_step : ∀ ev st,
  field (fst (step p ev st)) =
    match write ev with
    | Some (k, v) => <[k := v]> (field st)
    | None => field st
    end.

Lemma last_write (evs : list Event) (k : string) (v : V) :
  field (fst (run p evs initial)) !! k = Some v ↔
  ∃ pre ev post,
    evs = pre ++ ev :: post ∧ write ev = Some (k, v) ∧
    ∀ ev' v', ev' ∈ post → write ev' ≠ Some (k, v').
Proof.
  revert v. induction evs as [|ev evs IH] using rev_ind; intros v.
  - simpl. rewrite field_initial, lookup_empty. split; [done|].
    intros (pre & ev & post & E & _). by destruct pre.
  - rewrite run_snoc_full. simpl. rewrite field_step.
    destruct (write ev) as [[k' v0]|] eqn:W.
    + destruct (decide (k' = k)) as [->|Hne].
      * rewrite lookup_insert_eq. split.
        -- intros [= <-]. exists evs, ev, []. repeat split; [done|].
           intros ev' v' Hin. by apply elem_of_nil in Hin.
        -- intros (pre & ev1 & post & E & W1 & Hpost).
           apply AggregateFacts.snoc_eq_middle in E
             as [(_ & _ & ->)|(post' & -> & _)]; [congruence|].
           exfalso. apply (Hpost ev v0); [|done].
           apply elem_of_app. right. by apply list_elem_of_singleton.
      * rewrite lookup_insert_ne by done. rewrite IH. split.
        -- intros (pre & ev1 & post & -> & W1 & Hpost).
           exists pre, ev1, (post ++ [ev]). rewrite <- app_assoc.
           repeat split; [done|].
           intros ev' v' [Hin|Heq%list_elem_of_singleton]%elem_of_app;
             [by apply Hpost|]. subst ev'. rewrite W. congruence.
        -- intros (pre & ev1 & post & E & W1 & Hpost).
           apply AggregateFacts.snoc_eq_middle in E
             as [(_ & _ & ->)|(post' & -> & ->)]; [congruence|].
           exists pre, ev1, post'. repeat split; [done|].
           intros ev' v' Hin. apply Hpost. apply elem_of_app. by left.
    + rewrite IH. split.
      * intros (pre & ev1 & post & -> & W1 & Hpost).
        exists pre, ev1, (post ++ [ev]). rewrite <- app_assoc.
        repeat split; [done|].
        intros ev' v' [Hin|Heq%list_elem_of_singleton]%elem_of_app;
          [by apply Hpost|]. subst ev'. by rewrite W.
      * intros (pre & ev1 & post & E & W1 & Hpost).
        apply AggregateFacts.snoc_eq_middle in E
          as [(_ & _ & ->)|(post' & -> & ->)]; [congruence|].
        exists pre, ev1, post'. repeat split; [done|].
        intros ev' v' Hin. apply Hpost. apply elem_of_app. by left.
Qed.

End LastWrite.

(** ** The three per-question stores, step by step *)

Lemma step_answers (p : Props) (ev : Event) (st : State) :
  answers (fst (step p ev st)) =
    match ev with
    | TranscribeSettled q
        (Fulfilled {| transcribe_data := Some {| transcript := Some t |} |}) =>
        if truthy t then <[q := t]> (answers st) else answers st
    | _ => answers st
    end.
Proof. step_cases ev; done. Qed.

Lemma step_grades (p : Props) (ev : Event) (st : State) :
  grades (fst (step p ev st)) =
    match ev with
    | EvaluateSettled q (Fulfilled res) => <[q := grade res]> (grades st)
    | _ => grades st
    end.
Proof. step_cases ev; done. Qed.

Lemma step_feedbacks (p : Props) (ev : Event) (st : State) :
  feedbacks (fst (step p ev st)) =
    match ev with
    | EvaluateSettled q (Fulfilled res) => <[q := feedback res]> (feedbacks st)
    | _ => feedbacks st
    end.
Proof. step_cases ev; done. Qed.

Lemma transcript_of_Some (ev : Event) (q t : string) :
  Lifecycle.transcript_of ev = Some (q, t) ↔
  truthy t = true ∧
  ev = TranscribeSettled q
         (Fulfilled {| transcribe_data := Some {| transcript := Some t |} |}).
Proof.
  split.
  - destruct ev as [?|? ?|?|?|q0 [[[[[t0|]]|]]|?]|? ?|?]; simpl; try done.
    destruct (truthy t0) eqn:T; [|done]. by intros [= -> ->].
  - intros [T ->]. simpl. by rewrite T.
Qed.

Lemma evaluation_of_Some (ev : Event) (q : string) (g : Z) (fb : string) :
  Lifecycle.evaluation_of ev = Some (q, (g, fb)) ↔
  ev = EvaluateSettled q (Fulfilled {| grade := g; feedback := fb |}).
Proof.
  split.
  - destruct ev as [?|? ?|?|?|? ?|q0 [[g0 fb0]|?]|?]; simpl; try done.
    by intros [= -> -> ->].
  - by intros ->.
Qed.

(** X1.  After any sequence of events, the stored answer of a question is
    the transcript of the last transcription of that question that
    succeeded with a non-empty transcript; failed or empty transcriptions
    and everything else leave it as it was. *)
Theorem answer_is_latest_transcript (p : Props) (evs : list Event) (q t : string) :
  answers (fst (run p evs initial)) !! q = Some t ↔
  truthy t = true ∧
  ∃ pre post,
    evs = pre ++ TranscribeSettled q
                   (Fulfilled {| transcribe_data := Some {| transcript := Some t |} |})
              :: post ∧
    ∀ t', truthy t' = true →
          TranscribeSettled q
            (Fulfilled {| transcribe_data := Some {| transcript := Some t' |} |})
          ∉ post.
Proof.
  rewrite (last_write p answers Lifecycle.transcript_of); [|done|].
  - split.
    + intros (pre & ev & post & -> & [T ->]%transcript_of_Some & Hpost).
      split; [done|]. exists pre, post. split; [done|].
      intros t' T' Hin. apply (Hpost _ t' Hin). by apply transcript_of_Some.
    + intros (T & pre & post & -> & Hpost).
      eexists pre, _, post. split; [done|]. split; [by apply transcript_of_Some|].
      intros ev' t' Hin [T' ->]%transcript_of_Some. by apply (Hpost t').
  - intros ev st. rewrite step_answers.
    destruct ev as [?|? ?|?|?|q0 [[[[[t0|]]|]]|?]|? ?|?]; simpl; try done.
    by destruct (truthy t0).
Qed.

(** X2.  After any sequence of events, the grade and the feedback stored
    for a question are those of the last evaluation of that question that
    succeeded: a new evaluation overwrites both, a failed one keeps them. *)
Theorem evaluation_is_latest (p : Props) (evs : list Event) (q : string)
    (g : Z) (fb : string) :
  (grades (fst (run p evs initial)) !! q = Some g ∧
   feedbacks (fst (run p evs initial)) !! q = Some fb) ↔
  ∃ pre post,
    evs = pre ++ EvaluateSettled q (Fulfilled {| grade := g; feedback := fb |}) :: post ∧
    ∀ res, EvaluateSettled q (Fulfilled res) ∉ post.
Proof.
  etrans; [symmetry; apply (map_lookup_zip_Some _ _ q (g, fb))|].
  rewrite (last_write p (λ st, map_zip (grades st) (feedbacks st))
             Lifecycle.evaluation_of).
  - split.
    + intros (pre & ev & post & -> & ->%evaluation_of_Some & Hpost).
      exists pre, post. split; [done|].
      intros [g' fb'] Hin. by apply (Hpost _ (g', fb') Hin).
    + intros (pre & post & -> & Hpost).
      eexists pre, _, post. split; [done|]. split; [by apply evaluation_of_Some|].
      intros ev' [g' fb'] Hin ->%evaluation_of_Some. by apply (Hpost _ Hin).
  - simpl. apply map_eq. intros k. by rewrite map_lookup_zip_with, !lookup_empty.
  - intros ev st. rewrite step_grades, step_feedbacks.
    destruct ev as [?|? ?|?|?|? ?|q0 [res|?]|?]; simpl; try done.
    by rewrite map_insert_zip_with.
Qed.

(** X3.  After any sequence of events a question has a feedback exactly
    when it has a grade: the two maps are written together, so the page
    never falls back to "N/A" for the grade of a feedback it shows. *)
Theorem feedback_iff_grade (p : Props) (evs : list Event) (q : string) :
  is_Some (feedbacks (fst (run p evs initial)) !! q) ↔
  is_Some (grades (fst (run p evs initial)) !! q).
Proof.
  induction evs as [|ev evs IH] using rev_ind.
  - simpl. by rewrite !lookup_empty.
  - rewrite run_snoc_full. simpl. rewrite step_grades, step_feedbacks.
    destruct ev as [?|? ?|?|?|? ?|q0 [res|?]|?]; try exact IH.
    destruct (decide (q0 = q)) as [->|Hne].
    + rewrite !lookup_insert_eq. split; by eexists.
    + by rewrite !lookup_insert_ne.
Qed.

End StoreFacts.

(* ===================================================================== *)
(** * QuestionsPanel: invariants of a session *)
(* ===================================================================== *)

Module SessionFacts.

Import JS QuestionsPanel StoreFacts.

Lemma handleSubmit_state (p : Props) (q : string) (answerText : option string)
    (st : State) :
  fst (handleSubmit p q answerText st) = st.
Proof.
  unfold handleSubmit. destruct (JS.or _ _) as [a|]; [|done].
  by destruct (negb (truthy a) || bool_decide (trim a = "")).
Qed.

(** The question of an evaluate-answer request has a stored answer by the
    time the request leaves. *)
Lemma step_request_answered (p : Props) (ev : Event) (st : State)
    (q a : string) (t : option string) :
  Post (EvaluateAnswer q a t) ∈ snd (step p ev st) →
  is_Some (answers (fst (step p ev st)) !! q).
Proof.
  destruct ev as [c|q0 r|chunk|q0|q0 r|q0 r|r]; simpl.
  - unfold click. destruct (enabled p st c) eqn:En; [|by intros ?%elem_of_nil].
    destruct c as [q0|q0|q0|]; simpl.
    + by intros ?%SubmitFacts.startRecording_no_evaluate.
    + by intros ?%SubmitFacts.stopRecording_no_evaluate.
    + rewrite handleSubmit_state.
      intros (-> & _ & Hor & _)%SubmitFacts.handleSubmit_request.
      unfold JS.or in Hor. simpl in Hor. by rewrite Hor.
    + by intros ?%SubmitFacts.handleFinalEvaluation_no_evaluate.
  - by intros ?%SubmitFacts.startRecording_settled_no_evaluate.
  - by intros ?%elem_of_nil.
  - by intros [=]%list_elem_of_singleton.
  - destruct r as [[[[[tr|]]|]]|m]; simpl;
      try by intros [=]%list_elem_of_singleton.
    destruct (truthy tr) eqn:Tr; [|by intros [=]%list_elem_of_singleton].
    rewrite handleSubmit_state. simpl.
    intros (-> & _)%SubmitFacts.handleSubmit_request.
    rewrite lookup_insert_eq. by eexists.
  - by intros ?%SubmitFacts.handleSubmit_settled_no_evaluate.
  - by intros ?%SubmitFacts.handleFinalEvaluation_settled_no_evaluate.
Qed.

(** A stored answer is never removed. *)
Lemma step_answers_kept (p : Props) (ev : Event) (st : State) (q : string) :
  is_Some (answers st !! q) → is_Some (answers (fst (step p ev st)) !! q).
Proof.
  rewrite step_answers.
  destruct ev as [?|? ?|?|?|q0 [[[[[t0|]]|]]|?]|? ?|?]; try done.
  destruct (truthy t0); [|done].
  intros H. destruct (decide (q0 = q)) as [->|Hne].
  - rewrite lookup_insert_eq. by eexists.
  - by rewrite lookup_insert_ne.
Qed.

Lemma causal_invariant (p : Props) (evs : list Event) :
  Lifecycle.causal p evs →
  (∀ q a t, Post (EvaluateAnswer q a t) ∈ snd (run p evs initial) →
            is_Some (answers (fst (run p evs initial)) !! q)) ∧
  (∀ q, is_Some (grades (fst (run p evs initial)) !! q) →
        is_Some (answers (fst (run p evs initial)) !! q)).
Proof.
  induction 1 as [|evs ev Hc [IHreq IHgr] Hreq].
  - simpl. split; [by intros q a t ?%elem_of_nil|].
    intros q. rewrite lookup_empty. by intros [? ?].
  - rewrite run_snoc_full. simpl. split.
    + intros q a t [Hin|Hin]%elem_of_app.
      * apply step_answers_kept. by apply (IHreq q a t).
      * by apply (step_request_answered p ev _ q a t).
    + intros q. rewrite step_grades.
      destruct ev as [?|? ?|?|?|? ?|q0 [res|?]|?];
        try (intros Hg; apply step_answers_kept; by apply IHgr).
      destruct (decide (q0 = q)) as [->|Hne].
      * intros _. simpl in Hreq. destruct Hreq as (a & t & Hin).
        apply step_answers_kept. by apply (IHreq q a t).
      * rewrite lookup_insert_ne by done.
        intros Hg. apply step_answers_kept. by apply IHgr.
Qed.

(** X4.  In a session where every settled evaluation answers a request
    that was posted, every question that has a grade also has a stored
    answer: no question is graded before it is answered. *)
Theorem graded_questions_are_answered (p : Props) (evs : list Event) (q : string) :
  Lifecycle.causal p evs →
  is_Some (grades (fst (run p evs initial)) !! q) →
  is_Some (answers (fst (run p evs initial)) !! q).
Proof. intros Hc. by apply (causal_invariant p evs Hc). Qed.

Lemma graded_questions_are_answered_witness :
  is_Some
    (answers
       (fst (run Scenario.props
               [TranscribeSettled "What is a goroutine?" (Scenario.transcribed "A green thread");
                EvaluateSettled "What is a goroutine?" (Scenario.graded 7 "ok")]
               initial))
     !! "What is a goroutine?").
Proof.
  apply (graded_questions_are_answered Scenario.props
           [TranscribeSettled "What is a goroutine?" (Scenario.transcribed "A green thread");
            EvaluateSettled "What is a goroutine?" (Scenario.graded 7 "ok")]
           "What is a goroutine?").
  - apply (Lifecycle.causal_snoc Scenario.props
             [TranscribeSettled "What is a goroutine?" (Scenario.transcribed "A green thread")]).
    + apply (Lifecycle.causal_snoc Scenario.props []); [constructor|exact I].
    + exists "A green thread", (Some "Go"). vm_compute. repeat constructor.
  - vm_compute. by eexists.
Defined.

End SessionFacts.

(* ===================================================================== *)
(** * QuestionsPanel: the recorder, from start to unmount *)
(* ===================================================================== *)

Module RecorderFacts.

Import JS QuestionsPanel StoreFacts.

Lemma step_audioChunks (p : Props) (ev : Event) (st : State) :
  audioChunks (fst (step p ev st)) =
    match ev with
    | MediaSettled _ (Fulfilled _) => []
    | DataAvailable chunk => audioChunks st ++ [chunk]
    | _ => audioChunks st
    end.
Proof. step_cases ev; done. Qed.

(** Without a new recorder, the buffer only grows by the chunks that
    arrive. *)
Lemma run_audioChunks (p : Props) (evs : list Event) (st : State) :
  (∀ ev, ev ∈ evs → Lifecycle.starts_recorder ev = false) →
  audioChunks (fst (run p evs st)) = audioChunks st ++ omap Lifecycle.chunk_of evs.
Proof.
  revert st. induction evs as [|ev evs IH]; intros st Hno; simpl.
  - by rewrite app_nil_r.
  - pose proof (step_audioChunks p ev st) as Hs.
    destruct (step p ev st) as [st1 out1] eqn:S1. simpl in Hs.
    assert (Hrest : ∀ ev', ev' ∈ evs → Lifecycle.starts_recorder ev' = false).
    { intros ev' Hin. apply Hno. apply elem_of_cons. by right. }
    specialize (IH st1 Hrest).
    destruct (run p evs st1) as [st2 out2]. simpl in *. rewrite IH, Hs.
    assert (H0 : Lifecycle.starts_recorder ev = false).
    { apply Hno. apply elem_of_cons. by left. }
    destruct ev as [?|? [?|?]|?|?|? ?|? ?|?]; simpl in *; try done.
    by rewrite <- app_assoc.
Qed.

(** X5.  When a recorder stops, the transcription request carries exactly
    the audio chunks that arrived since that recorder was started, in
    order: the buffer is emptied at each start, so audio of an earlier
    recording is never sent again. *)
Theorem transcription_sends_chunks_since_start (p : Props) (q q' : string)
    (s : MediaStream) (evs : list Event) (st : State) :
  (∀ ev, ev ∈ evs → Lifecycle.starts_recorder ev = false) →
  snd (step p (RecorderStopped q')
         (fst (run p (MediaSettled q (Fulfilled s) :: evs) st)))
  = [Post (TranscribeAudio (omap Lifecycle.chunk_of evs))].
Proof.
  intros Hno. simpl.
  pose proof (run_audioChunks p evs
                (fst (startRecording_settled q (Fulfilled s) st)) Hno) as H.
  simpl in H. destruct (run p evs _) as [st2 out2]. simpl in *. by rewrite H.
Qed.

Lemma transcription_sends_chunks_since_start_witness :
  snd (step Scenario.props (RecorderStopped "What is the GIL?")
         (fst (run Scenario.props
                 [MediaSettled "What is the GIL?" (Fulfilled {| tracks := ["audio"] |});
                  DataAvailable [1%N; 2%N];
                  UI (ClickStop "What is the GIL?");
                  DataAvailable [3%N]]
                 Scenario.recording_go)))
  = [Post (TranscribeAudio [[1%N; 2%N]; [3%N]])].
Proof.
  apply (transcription_sends_chunks_since_start Scenario.props
           "What is the GIL?" "What is the GIL?" {| tracks := ["audio"] |}
           [DataAvailable [1%N; 2%N]; UI (ClickStop "What is the GIL?");
            DataAvailable [3%N]]
           Scenario.recording_go).
  intros ev Hin. repeat (apply elem_of_cons in Hin as [->|Hin]; [reflexivity|]).
  by apply elem_of_nil in Hin.
Defined.

(** Throughout a session the recorder is in state [recording] exactly
    while the recording flag is up. *)
Lemma recorder_state_follows_flag (p : Props) (st : State) :
  reachable p st →
  match mediaRecorder st with
  | Some rec => state rec = if isRecording st then recording else inactive
  | None => isRecording st = false
  end.
Proof.
  induction 1 as [|st ev Hr IH]; [done|].
  destruct ev as [c|q0 r|chunk|q0|q0 r|q0 r|r]; simpl.
  - unfold click. destruct (enabled p st c); [|exact IH].
    destruct c as [q0|q0|q0|]; simpl; try exact IH.
    + unfold stopRecording. destruct (mediaRecorder st) as [rec|] eqn:M.
      * destruct (isRecording st) eqn:R; simpl; [done|]. by rewrite M, R.
      * simpl. by rewrite M.
    + rewrite SessionFacts.handleSubmit_state. exact IH.
    + unfold handleFinalEvaluation. case_bool_decide; exact IH.
  - by destruct r.
  - exact IH.
  - exact IH.
  - destruct r as [[[[[tr|]]|]]|m]; simpl; try exact IH.
    destruct (truthy tr); [|exact IH].
    rewrite SessionFacts.handleSubmit_state. exact IH.
  - destruct r as [res|m]; [|exact IH]. simpl.
    destruct (findTechQuestion p q0); exact IH.
  - destruct r as [[[d|]]|m]; simpl; [destruct (success d)|..]; exact IH.
Qed.

(** X6.  In a session, stopping while a recording is active calls [stop]
    on a recorder that is recording, stops every track of its stream, and
    leaves the panel idle: no active question, and every question of the
    page can be recorded again. *)
Theorem stop_returns_to_idle (p : Props) (st : State) :
  reachable p st →
  isRecording st = true →
  ∃ rec,
    mediaRecorder st = Some rec ∧ state rec = recording ∧
    snd (stopRecording st) = RecorderStop :: map TrackStop (tracks (stream rec)) ∧
    isRecording (fst (stopRecording st)) = false ∧
    activeQuestion (fst (stopRecording st)) = None ∧
    ∀ q, q ∈ allQuestions p →
         enabled p (fst (stopRecording st)) (ClickRecord q) = true.
Proof.
  intros Hr R.
  destruct (RecordingFacts.recording_tracks_recorder p st Hr R) as (rec & M & S & _).
  exists rec. unfold stopRecording. rewrite M, R. simpl.
  repeat split; [done..|].
  intros q Hq. by rewrite (bool_decide_eq_true_2 _ Hq).
Qed.

Lemma stop_returns_to_idle_witness :
  snd (stopRecording Scenario.recording_go) = [RecorderStop; TrackStop "audio"] ∧
  isRecording (fst (stopRecording Scenario.recording_go)) = false.
Proof.
  destruct (stop_returns_to_idle Scenario.props Scenario.recording_go)
    as (rec & M & _ & Hout & Hidle & _).
  - apply (reachable_step Scenario.props initial
             (MediaSettled "What is a goroutine?" (Fulfilled {| tracks := ["audio"] |}))).
    constructor.
  - reflexivity.
  - split; [|exact Hidle]. rewrite Hout.
    injection M as <-. reflexivity.
Defined.

(** X7.  In a session, unmounting the panel stops the recorder when a
    recording is active and calls nothing otherwise, so [stop] is never
    called on a recorder that is already inactive; the tracks of the
    stream are not stopped by the cleanup. *)
Theorem unmount_stops_active_recorder (p : Props) (st : State) :
  reachable p st →
  snd (Lifecycle.unmount st) = if isRecording st then [RecorderStop] else [].
Proof.
  intros Hr. pose proof (recorder_state_follows_flag p st Hr) as H.
  unfold Lifecycle.unmount. destruct (mediaRecorder st) as [rec|].
  - rewrite H. by destruct (isRecording st).
  - by rewrite H.
Qed.

Lemma unmount_stops_active_recorder_witness :
  snd (Lifecycle.unmount Scenario.recording_go) = [RecorderStop] ∧
  snd (Lifecycle.unmount initial) = [].
Proof.
  split.
  - apply (unmount_stops_active_recorder Scenario.props Scenario.recording_go).
    apply (reachable_step Scenario.props initial
             (MediaSettled "What is a goroutine?" (Fulfilled {| tracks := ["audio"] |}))).
    constructor.
  - apply (unmount_stops_active_recorder Scenario.props initial). constructor.
Defined.

(** X16.  The recording flag goes up only once [getUserMedia] has resolved,
    so a second Record Answer click made before that is admitted.  When
    both requests then resolve, two recorders have been started; the panel
    keeps the second one only, and Stop Recording stops that recorder and
    the tracks of its stream: the first recorder and the tracks of the
    first stream are not stopped. *)
Theorem overlapping_starts_keep_last_recorder (p : Props) (st : State)
    (q1 q2 : string) (s1 s2 : MediaStream) :
  isRecording st = false →
  q1 ∈ allQuestions p → q2 ∈ allQuestions p →
  let overlapping :=
    [UI (ClickRecord q1); UI (ClickRecord q2);
     MediaSettled q1 (Fulfilled s1); MediaSettled q2 (Fulfilled s2);
     UI (ClickStop q2)] in
  snd (run p overlapping st)
  = [GetUserMedia q1; GetUserMedia q2; RecorderStart; RecorderStart; RecorderStop]
    ++ map TrackStop (tracks s2) ∧
  mediaRecorder (fst (run p overlapping st))
  = Some {| stream := s2; state := inactive; onstop_question := q2 |} ∧
  isRecording (fst (run p overlapping st)) = false.
Proof.
  intros R H1 H2. simpl. unfold click. simpl.
  rewrite (bool_decide_eq_true_2 _ H1), (bool_decide_eq_true_2 _ H2).
  rewrite (bool_decide_eq_true_2 (Some q2 = Some q2) eq_refl).
  repeat (rewrite R; simpl).
  by rewrite app_nil_r.
Qed.

Lemma overlapping_starts_keep_last_recorder_witness :
  snd (run Scenario.props
         [UI (ClickRecord "What is a goroutine?"); UI (ClickRecord "What is the GIL?");
          MediaSettled "What is a goroutine?" (Fulfilled {| tracks := ["first"] |});
          MediaSettled "What is the GIL?" (Fulfilled {| tracks := ["second"] |});
          UI (ClickStop "What is the GIL?")] initial)
  = [GetUserMedia "What is a goroutine?"; GetUserMedia "What is the GIL?";
     RecorderStart; RecorderStart; RecorderStop; TrackStop "second"].
Proof.
  apply (overlapping_starts_keep_last_recorder Scenario.props initial
           "What is a goroutine?" "What is the GIL?"
           {| tracks := ["first"] |} {| tracks := ["second"] |}).
  - reflexivity.
  - apply (bool_decide_unpack _). vm_compute. exact I.
  - apply (bool_decide_unpack _). vm_compute. exact I.
Defined.

End RecorderFacts.

(* ===================================================================== *)
(** * QuestionsPanel: what the final-evaluation request carries *)
(* ===================================================================== *)

Module FinalRequestFacts.

Import JS QuestionsPanel StoreFacts.

Lemma step_yearsExperience (p : Props) (ev : Event) (st : State) :
  yearsExperience (fst (step p ev st)) = yearsExperience st.
Proof. step_cases ev; done. Qed.

(** The panel never writes its [yearsExperience] state. *)
Lemma yearsExperience_empty (p : Props) (st : State) :
  reachable p st → yearsExperience st = "".
Proof.
  induction 1 as [|st ev Hr IH]; [done|]. by rewrite step_yearsExperience.
Qed.

Lemma handleSubmit_no_final (p : Props) (q : string) (answerText : option string)
    (st : State) (e : Effect) :
  e ∈ snd (handleSubmit p q answerText st) → is_post_final e = false.
Proof.
  unfold handleSubmit. destruct (JS.or _ _) as [a|];
    [destruct (negb (truthy a) || bool_decide (trim a = ""))|];
    simpl; by intros ->%list_elem_of_singleton.
Qed.

(** X8.  In a session, a final-evaluation request leaves only on a click
    on an enabled Generate Final Evaluation button, and it carries the job
    description and candidate name of the props, the pairs built from the
    current answers and feedbacks, and an empty [years_experience]: the
    panel's own [yearsExperience] state is never set. *)
Theorem final_request_contents (p : Props) (ev : Event) (st : State)
    (jd : string) (pairs : list QAPair) (name years : string) :
  reachable p st →
  (Post (FinalEvaluation jd pairs name years) ∈ snd (step p ev st) ↔
   ev = UI ClickFinal ∧ isEvaluating st = false ∧ size (answers st) ≠ 0%nat ∧
   jd = jobDescription p ∧ pairs = qaPairs p st ∧ name = candidateName p ∧
   years = "").
Proof.
  intros Hr. pose proof (yearsExperience_empty p st Hr) as Hy. split.
  - destruct ev as [c|q0 r|chunk|q0|q0 r|q0 r|r]; simpl.
    + unfold click. destruct (enabled p st c) eqn:En; [|by intros ?%elem_of_nil].
      destruct c as [q0|q0|q0|]; simpl.
      * by intros [=]%list_elem_of_singleton.
      * unfold stopRecording. destruct (mediaRecorder st); [|by intros ?%elem_of_nil].
        destruct (isRecording st); [|by intros ?%elem_of_nil]. simpl.
        intros [[=]|Hin]%elem_of_cons.
        by apply list_elem_of_fmap in Hin as (k & [=] & _).
      * by intros ?%handleSubmit_no_final.
      * simpl in En. apply negb_true_iff, orb_false_iff in En as [E1 E2].
        apply bool_decide_eq_false in E2.
        rewrite FinalEvaluationFacts.handleFinalEvaluation_proceeds by done.
        simpl. intros [= -> -> -> ->]%list_elem_of_singleton. done.
    + destruct r; simpl; by intros [=]%list_elem_of_singleton.
    + by intros ?%elem_of_nil.
    + by intros [=]%list_elem_of_singleton.
    + destruct r as [[[[[tr|]]|]]|m]; simpl;
        try by intros [=]%list_elem_of_singleton.
      destruct (truthy tr); [|by intros [=]%list_elem_of_singleton].
      by intros ?%handleSubmit_no_final.
    + destruct r as [res|m]; simpl; [|by intros [=]%list_elem_of_singleton].
      destruct (findTechQuestion p q0); simpl; by intros ?%elem_of_nil.
    + destruct r as [[[d|]]|m]; simpl; [destruct (success d); simpl|..];
        first [by intros ?%elem_of_nil | by intros [=]%list_elem_of_singleton].
  - intros (-> & E1 & E2 & -> & -> & -> & ->). simpl. unfold click. simpl.
    rewrite E1, (bool_decide_eq_false_2 _ E2). simpl.
    rewrite FinalEvaluationFacts.handleFinalEvaluation_proceeds by done.
    simpl. rewrite Hy. by apply list_elem_of_singleton.
Qed.

Lemma final_request_contents_witness :
  Post (FinalEvaluation "Senior backend engineer"
          (qaPairs Scenario.props Scenario.answered) "Alice" "")
  ∈ snd (step Scenario.props (UI ClickFinal) Scenario.answered).
Proof.
  apply (final_request_contents Scenario.props (UI ClickFinal) Scenario.answered
           "Senior backend engineer" (qaPairs Scenario.props Scenario.answered)
           "Alice" "").
  - apply (reachable_step Scenario.props initial
             (TranscribeSettled "Describe a caching bug you fixed"
                (Scenario.transcribed "I once found a stale cache entry..."))).
    constructor.
  - repeat split. vm_compute. discriminate.
Defined.

(** X9.  An event that settles a request for one question changes neither
    the answer, the grade nor the feedback of any other question, and every
    other event leaves all three stores as they are: a failure or a result
    is scoped to the question that triggered it. *)
Theorem other_questions_untouched (p : Props) (ev : Event) (st : State) (q' : string) :
  (∀ q r, ev = TranscribeSettled q r → q ≠ q') →
  (∀ q r, ev = EvaluateSettled q r → q ≠ q') →
  answers (fst (step p ev st)) !! q' = answers st !! q' ∧
  grades (fst (step p ev st)) !! q' = grades st !! q' ∧
  feedbacks (fst (step p ev st)) !! q' = feedbacks st !! q'.
Proof.
  intros Ht He. rewrite step_answers, step_grades, step_feedbacks.
  destruct ev as [?|? ?|?|?|q0 r|q0 r|?]; try done.
  - specialize (Ht q0 r eq_refl).
    destruct r as [[[[[tr|]]|]]|m]; try done.
    destruct (truthy tr); [|done]. by rewrite lookup_insert_ne.
  - specialize (He q0 r eq_refl).
    destruct r as [res|m]; [|done]. by rewrite !lookup_insert_ne.
Qed.

Lemma other_questions_untouched_witness :
  answers (fst (step Scenario.props
                  (EvaluateSettled "What is a goroutine?" (Scenario.graded 7 "ok"))
                  Scenario.answered))
    !! "Describe a caching bug you fixed"
  = answers Scenario.answered !! "Describe a caching bug you fixed".
Proof.
  apply (other_questions_untouched Scenario.props
           (EvaluateSettled "What is a goroutine?" (Scenario.graded 7 "ok"))
           Scenario.answered "Describe a caching bug you fixed").
  - discriminate.
  - intros q r [= <- _]. discriminate.
Defined.

End FinalRequestFacts.

(* ===================================================================== *)
(** * JDInput: reading the number of questions *)
(* ===================================================================== *)

Module NumeralFacts.

Import JS.

Lemma digit_pretty_N_char (d : N) :
  (d < 10)%N → digit 10 (pretty_N_char d) = Some (Z.of_N d).
Proof.
  intros H.
  assert (d = 0 ∨ d = 1 ∨ d = 2 ∨ d = 3 ∨ d = 4 ∨ d = 5 ∨ d = 6 ∨ d = 7
          ∨ d = 8 ∨ d = 9)%N as Hd by lia.
  repeat destruct Hd as [->|Hd]; try reflexivity. by subst.
Qed.

(** Reading the digits that [pretty_N_go] writes gives the number back. *)
Lemma digits_pretty_N_go (x : N) (s : string) (acc : option Z) :
  (0 < x)%N → from_option id 0 acc = 0 →
  digits 10 acc (pretty_N_go x s) = digits 10 (Some (Z.of_N x)) s.
Proof.
  revert s. induction (N.lt_wf_0 x) as [x _ IH]; intros s Hx Hacc.
  rewrite pretty_N_go_step by done.
  assert (Hd : (x `mod` 10 < 10)%N) by (apply N.mod_lt; lia).
  assert (Hx10 : Z.of_N x = 10 * Z.of_N (x `div` 10) + Z.of_N (x `mod` 10)).
  { rewrite (N.div_mod x 10) at 1 by lia. lia. }
  destruct (decide (x `div` 10 = 0)%N) as [E|E].
  - rewrite E, pretty_N_go_0. simpl.
    rewrite (digit_pretty_N_char _ Hd), Hacc, Hx10, E. done.
  - rewrite IH; [|apply N.div_lt; lia|lia|done]. simpl.
    rewrite (digit_pretty_N_char _ Hd). simpl. by rewrite Hx10.
Qed.

Lemma allDigits_pretty_N_go (x : N) (s : string) :
  Numeral.allDigits s = true → Numeral.allDigits (pretty_N_go x s) = true.
Proof.
  revert s. induction (N.lt_wf_0 x) as [x _ IH]; intros s Hs.
  destruct (decide (x = 0)%N) as [->|Hx]; [by rewrite pretty_N_go_0|].
  rewrite pretty_N_go_step by lia. apply IH; [apply N.div_lt; lia|].
  simpl. rewrite Hs, andb_true_r. apply bool_decide_eq_true.
  rewrite digit_pretty_N_char; [by eexists|apply N.mod_lt; lia].
Qed.

Lemma pretty_N_go_nonempty (x : N) (s : string) :
  s ≠ "" → pretty_N_go x s ≠ "".
Proof.
  revert s. induction (N.lt_wf_0 x) as [x _ IH]; intros s Hs.
  destruct (decide (x = 0)%N) as [->|Hx]; [by rewrite pretty_N_go_0|].
  rewrite pretty_N_go_step by lia. apply IH; [apply N.div_lt; lia|done].
Qed.

(** A digit is neither white space nor a sign, and a string of digits has
    no hexadecimal prefix. *)
Lemma digit_not_space (c : ascii) :
  is_Some (digit 10 c) → isWhiteSpace c = false.
Proof.
  destruct c as [[] [] [] [] [] [] [] []]; try reflexivity;
    by intros [? [=]].
Qed.

Lemma digits_stripSign (c : ascii) (r : string) :
  is_Some (digit 10 c) → stripSign (String c r) = (1, String c r).
Proof.
  destruct c as [[] [] [] [] [] [] [] []]; try reflexivity;
    by intros [? [=]].
Qed.

Lemma digits_stripHexPrefix (s : string) :
  Numeral.allDigits s = true → stripHexPrefix s = (10, s).
Proof.
  destruct s as [|a [|b r]]; simpl.
  - done.
  - intros _. by destruct a as [[] [] [] [] [] [] [] []].
  - intros (_ & Hb & _)%andb_true_iff%proj2%andb_true_iff%(conj I).
    apply bool_decide_eq_true in Hb.
    destruct a as [[] [] [] [] [] [] [] []]; try reflexivity.
    destruct b as [[] [] [] [] [] [] [] []]; try reflexivity;
      by destruct Hb as [? [=]].
Qed.

(** The numeral of a positive number: no white space, no sign, no
    hexadecimal prefix, and its digits read back as the number. *)
Lemma pretty_positive_read (x : positive) :
  trimStart (pretty (N.pos x)) = pretty (N.pos x) ∧
  stripSign (pretty (N.pos x)) = (1, pretty (N.pos x)) ∧
  stripHexPrefix (pretty (N.pos x)) = (10, pretty (N.pos x)) ∧
  digits 10 None (pretty (N.pos x)) = Some (Z.pos x).
Proof.
  unfold pretty, pretty_N. simpl.
  assert (Hall : Numeral.allDigits (pretty_N_go (N.pos x) "") = true)
    by by apply allDigits_pretty_N_go.
  assert (Hdig : digits 10 None (pretty_N_go (N.pos x) "") = Some (Z.pos x))
    by by rewrite digits_pretty_N_go.
  assert (Hhex := digits_stripHexPrefix _ Hall).
  destruct (pretty_N_go (N.pos x) "") as [|c r] eqn:E; [done|].
  simpl in Hall. apply andb_true_iff in Hall as [Hc%bool_decide_eq_true _].
  repeat split; [|by apply digits_stripSign|done..].
  simpl. by rewrite (digit_not_space c Hc).
Qed.

(** Reading a decimal numeral, in the model's exact arithmetic. *)
Lemma parseInt_reads_decimal (n : Z) : parseInt (Numeral.decimal n) = Some n.
Proof.
  destruct n as [|x|x]; [reflexivity|..].
  - destruct (pretty_positive_read x) as (Ht & Hs & Hh & Hd).
    unfold Numeral.decimal, parseInt.
    change (pretty (Z.pos x)) with (pretty (N.pos x)).
    rewrite Ht, Hs. cbv beta iota. rewrite Hh. cbv beta iota. by rewrite Hd.
  - destruct (pretty_positive_read x) as (_ & _ & Hh & Hd).
    unfold Numeral.decimal, parseInt.
    change (pretty (Z.neg x)) with (String "-" (pretty (N.pos x))).
    change (trimStart (String "-" (pretty (N.pos x))))
      with (String "-" (pretty (N.pos x))).
    change (stripSign (String "-" (pretty (N.pos x))))
      with (-1, pretty (N.pos x)).
    cbv beta iota. rewrite Hh. cbv beta iota. by rewrite Hd.
Qed.

(** X10.  For every integer of magnitude at most 2^53, the range in which
    a JavaScript number holds an integer exactly, [parseInt] reads back its
    decimal numeral; so the number field stores any such non-zero integer
    exactly as typed, inside 1..20 or not, and 5 for a typed 0. *)
Theorem parseInt_decimal_roundtrip (n : Z) (st : JDInput.State) :
  - 9007199254740992 ≤ n ≤ 9007199254740992 →
  parseInt (Numeral.decimal n) = Some n ∧
  JDInput.numQuestions (JDInput.onChangeNumQuestions (Numeral.decimal n) st)
    = if bool_decide (n = 0) then 5 else n.
Proof.
  intros _.
  assert (H : parseInt (Numeral.decimal n) = Some n)
    by apply parseInt_reads_decimal.
  split; [exact H|].
  unfold JDInput.onChangeNumQuestions. simpl. rewrite H. simpl.
  case_bool_decide as E.
  - subst. reflexivity.
  - by rewrite (proj2 (Z.eqb_neq n 0) E).
Qed.

Lemma parseInt_decimal_roundtrip_witness :
  Numeral.decimal 50 = "50" ∧
  JDInput.numQuestions (JDInput.onChangeNumQuestions (Numeral.decimal 50) Scenario.form)
    = 50.
Proof.
  split; [reflexivity|].
  apply (proj2 (parseInt_decimal_roundtrip 50 Scenario.form ltac:(lia))).
Defined.

End NumeralFacts.

(* ===================================================================== *)
(** * JDInput and App: generating the questions *)
(* ===================================================================== *)

Module GenerationFacts.

Import JS JSFacts Generation.

Example decimal_negative : Numeral.decimal (-3) = "-3".
Proof. reflexivity. Qed.

(** X11.  A click on Generate Questions sends a request exactly when the
    job description and the candidate name both hold something else than
    white space; the request then carries the job description as typed
    (not trimmed), the stored number of questions and the years of
    experience. *)
Theorem generate_request_sent (st : JDInput.State) (r : Request) :
  Post r ∈ snd (JDInput.clickGenerate st) ↔
  allWhiteSpace (JDInput.jd st) = false ∧
  allWhiteSpace (JDInput.candidateName st) = false ∧
  r = GenerateQuestions (JDInput.jd st) (JDInput.numQuestions st)
        (JDInput.yearsExperience st).
Proof.
  unfold JDInput.clickGenerate, JDInput.generateDisabled.
  rewrite !truthy_trim, !negb_involutive.
  destruct (allWhiteSpace (JDInput.jd st)) eqn:J; simpl.
  { split; [by intros ?%elem_of_nil|by intros [? _]]. }
  destruct (allWhiteSpace (JDInput.candidateName st)) eqn:C; simpl.
  { split; [by intros ?%elem_of_nil|by intros (_ & ? & _)]. }
  rewrite JDInputFacts.handleGenerate_posts by done. simpl.
  rewrite !elem_of_cons, elem_of_nil. split.
  - intros [[=]|[[=]|[[= <-]|[]]]]. done.
  - intros (_ & _ & ->). auto.
Qed.

Lemma clickGenerate_posts (form : JDInput.State) :
  allWhiteSpace (JDInput.jd form) = false →
  allWhiteSpace (JDInput.candidateName form) = false →
  JDInput.clickGenerate form =
    (form, [SetJobDescription (JDInput.jd form);
            OnCandidateNameChange (JDInput.candidateName form);
            Post (GenerateQuestions (JDInput.jd form) (JDInput.numQuestions form)
                    (JDInput.yearsExperience form))]).
Proof.
  intros J C. unfold JDInput.clickGenerate, JDInput.generateDisabled.
  rewrite !truthy_trim, J, C. simpl. by apply JDInputFacts.handleGenerate_posts.
Qed.

(** X12.  When the form is filled in and the backend answers with a
    questions object that has at least one of its keys, App renders the
    questions panel with those questions (a missing list read as empty),
    and with the job description and candidate name of the form; the form
    shows the returned tech stack; and a final evaluation started from that
    panel names the same job description and candidate. *)
Theorem generated_questions_reach_panel (form : JDInput.State) (app : App.State)
    (raw : RawQuestions) :
  allWhiteSpace (JDInput.jd form) = false →
  allWhiteSpace (JDInput.candidateName form) = false →
  (0 < App.keys raw)%nat →
  let r := Fulfilled {| generate_data := Some {| questions_field := Some raw |} |} in
  let props :=
    {| QuestionsPanel.questions := App.panelQuestions raw;
       QuestionsPanel.jobDescription := JDInput.jd form;
       QuestionsPanel.candidateName := JDInput.candidateName form |} in
  App.render (snd (fst (App.generate r form app))) = App.Rendered (Some props) ∧
  JDInput.techStacks (fst (fst (App.generate r form app)))
    = default [] (raw_tech_stack raw) ∧
  ∀ st, size (QuestionsPanel.answers st) ≠ 0%nat →
        snd (QuestionsPanel.handleFinalEvaluation props st) =
          [Post (FinalEvaluation (JDInput.jd form) (QuestionsPanel.qaPairs props st)
                   (JDInput.candidateName form) (QuestionsPanel.yearsExperience st))].
Proof.
  intros J C K r props. unfold App.generate.
  rewrite (clickGenerate_posts form J C). simpl.
  repeat split.
  - unfold App.render. simpl. by rewrite (bool_decide_eq_true_2 _ K).
  - intros st Hst.
    by rewrite FinalEvaluationFacts.handleFinalEvaluation_proceeds.
Qed.

Lemma generated_questions_reach_panel_witness :
  App.render
    (snd (fst (App.generate
                 (Fulfilled {| generate_data := Some {| questions_field :=
                    Some {| raw_general_questions := Some ["Tell me about yourself"];
                            raw_tech_questions := None;
                            raw_tech_stack := Some ["Go"] |} |} |})
                 Scenario.form App.initial)))
  = App.Rendered
      (Some {| QuestionsPanel.questions :=
                 {| QuestionsPanel.general_questions := ["Tell me about yourself"];
                    QuestionsPanel.tech_questions := [];
                    QuestionsPanel.tech_stack := ["Go"] |};
               QuestionsPanel.jobDescription := "Senior backend engineer";
               QuestionsPanel.candidateName := "Alice" |}).
Proof.
  apply (generated_questions_reach_panel Scenario.form App.initial
           {| raw_general_questions := Some ["Tell me about yourself"];
              raw_tech_questions := None; raw_tech_stack := Some ["Go"] |}).
  - reflexivity.
  - reflexivity.
  - vm_compute. lia.
Defined.

(** X13.  When the request fails, or its response has no body, the form is
    told so and the question set held by App stays as it was; the job
    description and the candidate name held by App have already been
    replaced by those of the form. *)
Theorem failed_generation_keeps_questions (form : JDInput.State) (app : App.State)
    (r : Settled GenerateResponse) :
  allWhiteSpace (JDInput.jd form) = false →
  allWhiteSpace (JDInput.candidateName form) = false →
  (∀ res, r = Fulfilled res → generate_data res = None) →
  fst (fst (App.generate r form app)) = form ∧
  App.questions (snd (fst (App.generate r form app))) = App.questions app ∧
  App.jobDescription (snd (fst (App.generate r form app))) = JDInput.jd form ∧
  App.candidateName (snd (fst (App.generate r form app))) = JDInput.candidateName form ∧
  Alert "Failed to generate questions. Please try again."
    ∈ snd (App.generate r form app).
Proof.
  intros J C Hr. unfold App.generate.
  rewrite (clickGenerate_posts form J C). simpl.
  destruct r as [res|m]; simpl.
  - rewrite (Hr res eq_refl). simpl. repeat split.
    rewrite !elem_of_cons. auto.
  - repeat split. rewrite !elem_of_cons. auto.
Qed.

Lemma failed_generation_keeps_questions_witness :
  App.questions (snd (fst (App.generate (Rejected "Network Error")
                             Scenario.form App.initial)))
  = EmptyArray.
Proof.
  apply (failed_generation_keeps_questions Scenario.form App.initial
           (Rejected "Network Error")).
  - reflexivity.
  - reflexivity.
  - discriminate.
Defined.

(** X14.  When the response has a body without a [questions] field,
    [setQuestions(undefined)] has run before the failure is caught: the
    alert is shown, the question set held by App is [undefined], and the
    next render of App throws on [Object.keys(questions)]. *)
Theorem missing_questions_breaks_render (form : JDInput.State) (app : App.State) :
  allWhiteSpace (JDInput.jd form) = false →
  allWhiteSpace (JDInput.candidateName form) = false →
  let r := Fulfilled {| generate_data := Some {| questions_field := None |} |} in
  App.questions (snd (fst (App.generate r form app))) = Undefined ∧
  App.render (snd (fst (App.generate r form app))) = App.RenderThrew ∧
  Alert "Failed to generate questions. Please try again."
    ∈ snd (App.generate r form app).
Proof.
  intros J C r. unfold App.generate.
  rewrite (clickGenerate_posts form J C). simpl.
  repeat split. rewrite !elem_of_cons. auto.
Qed.

Lemma missing_questions_breaks_render_witness :
  App.render
    (snd (fst (App.generate
                 (Fulfilled {| generate_data := Some {| questions_field := None |} |})
                 Scenario.form App.initial)))
  = App.RenderThrew.
Proof.
  apply (missing_questions_breaks_render Scenario.form App.initial); reflexivity.
Defined.

End GenerationFacts.

(* ===================================================================== *)
(** * The Electron main process: supervising the backend *)
(* ===================================================================== *)

Module ElectronMainFacts.

Import ElectronMain.

Lemma startPythonBackend_supervised (env : Env) (st : State) (out : list MainEffect) :
  supervised st out →
  supervised (fst (startPythonBackend env st))
    (out ++ snd (startPythonBackend env st)).
Proof.
  intros H child exe args cwd. unfold startPythonBackend. simpl.
  rewrite !elem_of_app, list_elem_of_singleton.
  intros [Hin|[Hin|[= <- _ _ _]]].
  - destruct (H child exe args cwd Hin) as [K|P]; [left; by left|].
    rewrite P. left. right. left. by apply list_elem_of_singleton.
  - destruct (pythonProcess st); [by apply list_elem_of_singleton in Hin|].
    by apply elem_of_nil in Hin.
  - by right.
Qed.

Lemma createWindow_supervised (env : Env) (st : State) (out : list MainEffect) :
  supervised st out →
  supervised (fst (createWindow env st)) (out ++ snd (createWindow env st)).
Proof.
  intros H. unfold createWindow.
  set (st1 := {| mainWindow := Some (fresh st); pythonProcess := pythonProcess st;
                 windows := windows st ++ [fresh st]; fresh := S (fresh st) |}).
  set (pre := [NewBrowserWindow (fresh st);
               LoadURL (fresh st)
                 (if isDev env then DevServer
                  else FileUrl [dirname env; "../dist/index.html"])]
              ++ (if isDev env then [OpenDevTools (fresh st)] else [])).
  assert (H1 : supervised st1 (out ++ pre)).
  { intros child exe args cwd [Hin|Hin]%elem_of_app.
    - destruct (H child exe args cwd Hin) as [K|P]; [|by right].
      left. apply elem_of_app. by left.
    - exfalso. subst pre. destruct (isDev env); simpl in Hin;
        repeat (apply elem_of_cons in Hin as [[=]|Hin]); by apply elem_of_nil in Hin. }
  pose proof (startPythonBackend_supervised env st1 (out ++ pre) H1) as H2.
  destruct (startPythonBackend env st1) as [st2 out2] eqn:E. simpl in *.
  subst pre. rewrite <- !app_assoc in *. exact H2.
Qed.

Lemma supervised_frame (st st' : State) (out out' : list MainEffect) :
  pythonProcess st' = pythonProcess st →
  (∀ child exe args cwd, Spawn child exe args cwd ∉ out') →
  supervised st out → supervised st' (out ++ out').
Proof.
  intros Hp Hno H child exe args cwd [Hin|Hin]%elem_of_app.
  - destruct (H child exe args cwd Hin) as [K|P].
    + left. apply elem_of_app. by left.
    + right. by rewrite Hp.
  - by apply Hno in Hin.
Qed.

Lemma supervised_kill (st st' : State) (out : list MainEffect) :
  supervised st out →
  supervised st'
    (out ++ match pythonProcess st with Some child => [Kill child] | None => [] end).
Proof.
  intros H child exe args cwd [Hin|Hin]%elem_of_app.
  - left. apply elem_of_app.
    destruct (H child exe args cwd Hin) as [K|P]; [by left|].
    right. rewrite P. by apply list_elem_of_singleton.
  - destruct (pythonProcess st); [by apply list_elem_of_singleton in Hin|].
    by apply elem_of_nil in Hin.
Qed.

Ltac no_spawn :=
  intros ? ? ? ? Hin;
  repeat (apply elem_of_cons in Hin as [[=]|Hin]); by apply elem_of_nil in Hin.

Lemma step_supervised (env : Env) (ev : MainEvent) (st : State)
    (out : list MainEffect) :
  supervised st out →
  supervised (fst (step env ev st)) (out ++ snd (step env ev st)).
Proof.
  intros H. destruct ev as [| |e|w|code| | |]; simpl.
  - by apply createWindow_supervised.
  - destruct (mainWindow st), (isDev env); simpl;
      (apply (supervised_frame st); [done|no_spawn|done]).
  - destruct e; simpl; (apply (supervised_frame st); [done|no_spawn|done]).
  - by apply (supervised_kill st).
  - case_bool_decide; [destruct (mainWindow st)|]; simpl;
      (apply (supervised_frame st); [done|no_spawn|done]).
  - case_bool_decide; simpl; (apply (supervised_frame st); [done|no_spawn|done]).
  - case_bool_decide; [by apply createWindow_supervised|].
    simpl. by rewrite app_nil_r.
  - by apply (supervised_kill st).
Qed.

Lemma run_supervised (env : Env) (evs : list MainEvent) (st : State)
    (out : list MainEffect) :
  supervised st out →
  supervised (fst (run env evs st)) (out ++ snd (run env evs st)).
Proof.
  revert st out. induction evs as [|ev evs IH]; intros st out H; simpl.
  - by rewrite app_nil_r.
  - pose proof (step_supervised env ev st out H) as H1.
    destruct (step env ev st) as [st1 out1]. simpl in H1.
    specialize (IH st1 (out ++ out1) H1).
    destruct (run env evs st1) as [st2 out2]. simpl in *.
    by rewrite app_assoc.
Qed.

Lemma main_run_snoc (env : Env) (evs : list MainEvent) (ev : MainEvent) (st : State) :
  run env (evs ++ [ev]) st =
    (fst (step env ev (fst (run env evs st))),
     snd (run env evs st) ++ snd (step env ev (fst (run env evs st)))).
Proof.
  revert st. induction evs as [|e evs IH]; intros st; simpl.
  - destruct (step env ev st). by rewrite app_nil_r.
  - destruct (step env e st) as [st1 out1]. rewrite (IH st1).
    destruct (run env evs st1) as [st2 out2]. simpl.
    destruct (step env ev st2). simpl. by rewrite app_assoc.
Qed.

(** On macOS: the window is opened, closed, opened again from the dock,
    and the application quits. *)
Example reopen_and_quit :
  snd (run {| isDev := false; platform := "darwin"; dirname := "/app" |}
         [Ready; ReadyToShow; Closed 0; WindowAllClosed; PythonClose None;
          Activate; WillQuit] initial)
  = [ NewBrowserWindow 0; LoadURL 0 (FileUrl ["/app"; "../dist/index.html"]);
      Spawn 1 ["/app"; ".."; "python"; "venv"; "bin"; "python"]
        [["/app"; ".."; "python"; "app.py"]] ["/app"; ".."];
      ShowWindow 0;
      Kill 1;
      NewBrowserWindow 2; LoadURL 2 (FileUrl ["/app"; "../dist/index.html"]);
      Spawn 3 ["/app"; ".."; "python"; "venv"; "bin"; "python"]
        [["/app"; ".."; "python"; "app.py"]] ["/app"; ".."];
      Kill 3 ].
Proof. vm_compute. reflexivity. Qed.

(** X15.  Whatever the events of the application, the main process leaves
    no backend behind: every child process it has spawned has been sent a
    kill, except the one [pythonProcess] still refers to; and once the
    window has been closed or the application is about to quit, every
    child spawned so far has been sent a kill. *)
Theorem no_backend_left_behind (env : Env) (evs : list MainEvent)
    (child : nat) (exe : Path) (args : list Path) (cwd : Path) :
  (Spawn child exe args cwd ∈ snd (run env evs initial) →
   Kill child ∈ snd (run env evs initial) ∨
   pythonProcess (fst (run env evs initial)) = Some child) ∧
  (∀ ev, ev = WillQuit ∨ (∃ w, ev = Closed w) →
         Spawn child exe args cwd ∈ snd (run env (evs ++ [ev]) initial) →
         Kill child ∈ snd (run env (evs ++ [ev]) initial)).
Proof.
  assert (H : ∀ evs', supervised (fst (run env evs' initial))
                        (snd (run env evs' initial))).
  { intros evs'. apply (run_supervised env evs' initial []).
    intros c e a w Hin. by apply elem_of_nil in Hin. }
  split; [apply H|].
  intros ev Hev Hin. destruct (H (evs ++ [ev]) child exe args cwd Hin) as [K|P];
    [done|].
  exfalso. rewrite main_run_snoc in P. simpl in P.
  destruct Hev as [->|[w ->]]; simpl in P; discriminate.
Qed.

End ElectronMainFacts.

(* ===================================================================== *)
(** * The packaged launcher: killing the backend at quit *)
(* ===================================================================== *)

Module LauncherFacts.

Import Launcher.

(** Once [pythonProcess] is [null] it stays so, and nothing is killed, as
    long as the application does not become ready again. *)
Lemma run_without_backend (env : Env) (evs : list LauncherEvent) (st : State) :
  AppReady ∉ evs →
  pythonProcess st = None →
  pythonProcess (fst (run env evs st)) = None ∧
  filter (λ e, is_kill e = true) (snd (run env evs st)) = [].
Proof.
  revert st. induction evs as [|ev evs IH]; intros st Hno Hp; simpl; [done|].
  apply not_elem_of_cons in Hno as [Hev Hno].
  destruct ev as [|code| |]; [done|..]; simpl.
  - destruct (IH {| pythonProcess := None; next := next st |} Hno eq_refl) as [H1 H2].
    destruct (run env evs _) as [st2 out2]. simpl in *. done.
  - destruct (IH st Hno Hp) as [H1 H2].
    destruct (run env evs st) as [st2 out2]. simpl in *.
    split; [done|]. rewrite filter_app, H2. by case_bool_decide.
  - rewrite Hp.
    destruct (IH {| pythonProcess := None; next := next st |} Hno eq_refl) as [H1 H2].
    destruct (run env evs _) as [st2 out2]. simpl in *. done.
Qed.

Lemma run_with_backend (env : Env) (evs : list LauncherEvent) (st : State)
    (child : nat) :
  AppReady ∉ evs →
  pythonProcess st = Some child →
  filter (λ e, is_kill e = true) (snd (run env evs st)) = [] ∨
  (filter (λ e, is_kill e = true) (snd (run env evs st)) = [KillBackend child] ∧
   ∃ pre post, evs = pre ++ AppQuitting :: post ∧
               ∀ code, BackendClosed code ∉ pre).
Proof.
  revert st. induction evs as [|ev evs IH]; intros st Hno Hp; simpl; [by left|].
  apply not_elem_of_cons in Hno as [Hev Hno].
  destruct ev as [|code| |]; [done|..]; simpl.
  - left.
    destruct (run_without_backend env evs {| pythonProcess := None; next := next st |}
                Hno eq_refl) as [_ H2].
    destruct (run env evs _) as [st2 out2]. simpl in *. done.
  - destruct (IH st Hno Hp) as [H|(H & pre & post & -> & Hpre)];
      destruct (run env _ st) as [st2 out2]; simpl in *.
    + left. rewrite filter_app, H. by case_bool_decide.
    + right. split; [rewrite filter_app, H; by case_bool_decide|].
      exists (AllWindowsClosed :: pre), post. split; [done|].
      intros code [[=]|Hin]%elem_of_cons. by apply (Hpre code).
  - right. rewrite Hp.
    destruct (run_without_backend env evs {| pythonProcess := None; next := next st |}
                Hno eq_refl) as [_ H2].
    destruct (run env evs _) as [st2 out2]. simpl in *.
    split.
    + rewrite filter_cons_True by done. by rewrite H2.
    + exists [], evs. split; [done|]. intros code Hin. by apply elem_of_nil in Hin.
Qed.

(** X17.  From the moment the application is ready, the launcher sends at
    most one kill, to the backend it spawned, and only at a quit that comes
    before the backend has closed by itself: once the [close] event has
    cleared [pythonProcess], quitting kills nothing. *)
Theorem backend_killed_once_if_running (env : Env) (evs : list LauncherEvent) :
  AppReady ∉ evs →
  let kills := filter (λ e, is_kill e = true)
                 (snd (run env (AppReady :: evs) initial)) in
  kills = [] ∨
  (kills = [KillBackend 0] ∧
   ∃ pre post, evs = pre ++ AppQuitting :: post ∧ ∀ code, BackendClosed code ∉ pre).
Proof.
  intros Hno. simpl.
  pose proof (run_with_backend env evs {| pythonProcess := Some 0%nat; next := 2 |}
                0%nat Hno eq_refl) as H.
  destruct (run env evs _) as [st2 out2]. simpl in *.
  destruct (isPackaged env); simpl; exact H.
Qed.

Lemma backend_killed_once_if_running_witness :
  filter (λ e, is_kill e = true)
    (snd (run {| isPackaged := true; resourcesPath := "/res"; dirname := "/app";
                 platform := "win32"; processEnv := ∅; parsed := None |}
            [AppReady; BackendClosed (Some 1); AllWindowsClosed; AppQuitting]
            initial))
  = [].
Proof.
  destruct (backend_killed_once_if_running
              {| isPackaged := true; resourcesPath := "/res"; dirname := "/app";
                 platform := "win32"; processEnv := ∅; parsed := None |}
              [BackendClosed (Some 1); AllWindowsClosed; AppQuitting])
    as [H|[H _]].
  - intros Hin. repeat (apply elem_of_cons in Hin as [[=]|Hin]).
    by apply elem_of_nil in Hin.
  - exact H.
  - vm_compute in H. discriminate H.
Defined.

End LauncherFacts.
